(** * YouTube Timestamp Saver: the bookmark store of [content.js]

    A shallow embedding of the content script's per-video bookmark store:
    the identity resolver [getVideoIdFromUrl], the storage cycle
    ([loadSavedTimestampsForVideo], [persistSavedTimestampsForVideo]), the
    list operations ([saveTimestamp], [deleteTimestamp], the note-input
    [focusout] handler), the CSV export and the resynchronization
    [onUrlChange].

    Modelling conventions.
    - A Number that may be anything ([NaN], an infinity, a fraction) is a
      [JSNumber]: the index that [deleteTimestamp] receives and the quantities
      read from the playback element.  A Number inside a stored value is an
      integer below [2^53] in size ([JNum], over [Z]): bookmark times are
      whole seconds, and the indices of [jumpToTimestamp] and of the note
      input are the integers that [Number(li.dataset.index)] yields for a row
      drawn by [renderTimestampList].
    - A [string] is a sequence of UTF-16 code units below 256 (ASCII and
      Latin-1); text with other code units is outside the model.
      ["034"%char] is the double quote and ["010"%char] the line feed.
    - The object stored under the key [timestamps] is modelled by the finite
      map of its own properties.  The one inherited property that matters is
      the accessor [__proto__] of [Object.prototype]: reading it yields an
      object that is not an array, and assigning to it stores nothing.
    - The storage keeps a JSON copy of what it is given: see [jsonCopy].
    - An [async] function is modelled by the state it leaves once all of its
      awaits have resolved, with no other handler run in between.  Handlers
      that overlap at an [await] are outside the model. *)

From Stdlib Require Import ZArith QArith Qround Ascii DecimalString DecimalPos DecimalZ.
From stdpp Require Import gmap strings list.

#[local] Set Warnings "-register-all".

Local Open Scope string_scope.
Local Open Scope Z_scope.

(** ** JavaScript string primitives used by the script *)

Module JsString.

Definition dquote : ascii := "034"%char.
Definition newline : ascii := "010"%char.

Definition str (c : ascii) : string := String c EmptyString.

(** [s.length === 0], the falsy string. *)
Definition isEmpty (s : string) : bool :=
  match s with EmptyString => true | String _ _ => false end.

(** [hay.startsWith(p)], returning what follows the prefix. *)
Fixpoint stripPrefix (p s : string) : option string :=
  match p, s with
  | EmptyString, _ => Some s
  | String _ _, EmptyString => None
  | String a p', String b s' =>
      if Ascii.eqb a b then stripPrefix p' s' else None
  end.

(** [hay.includes(needle)]. *)
Fixpoint includes (needle hay : string) : bool :=
  match stripPrefix needle hay with
  | Some _ => true
  | None =>
      match hay with
      | EmptyString => false
      | String _ hay' => includes needle hay'
      end
  end.

(** [s.split(sep)] for a one-character separator. *)
Fixpoint split (sep : ascii) (s : string) : list string :=
  match s with
  | EmptyString => [EmptyString]
  | String c s' =>
      if Ascii.eqb c sep then EmptyString :: split sep s'
      else match split sep s' with
           | seg :: rest => String c seg :: rest
           | [] => [str c]
           end
  end.

(** The character class [[^\/\?]]. *)
Definition isSegChar (c : ascii) : bool :=
  negb (Ascii.eqb c "/") && negb (Ascii.eqb c "?").

(** The greedy run matched by [[^\/\?]*] at the start of [s]. *)
Fixpoint takeSeg (s : string) : string :=
  match s with
  | EmptyString => EmptyString
  | String c s' => if isSegChar c then String c (takeSeg s') else EmptyString
  end.

(** An attempt of the regular expression [/<lit>([^\/\?]+)/] anchored at the
    start of [s]: the text of capture group 1. *)
Definition matchSegmentHere (lit s : string) : option string :=
  match stripPrefix lit s with
  | Some rest =>
      let cap := takeSeg rest in
      if isEmpty cap then None else Some cap
  | None => None
  end.

(** [s.match(/<lit>([^\/\?]+)/)]: the leftmost position where the
    expression matches decides; the result is capture group 1, [None] when
    [match] returns [null]. *)
Fixpoint matchSegment (lit s : string) : option string :=
  match matchSegmentHere lit s with
  | Some cap => Some cap
  | None =>
      match s with
      | EmptyString => None
      | String _ s' => matchSegment lit s'
      end
  end.

(** The white space and line terminator code units below 256, which
    [String.prototype.trim] strips and [\s] matches: TAB, LF, VT, FF, CR,
    SPACE and NO-BREAK SPACE (U+00A0). *)
Definition isSpace (c : ascii) : bool :=
  let n := nat_of_ascii c in
  ((9 <=? n)%nat && (n <=? 13)%nat) || (n =? 32)%nat || (n =? 160)%nat.

Fixpoint trimStart (s : string) : string :=
  match s with
  | EmptyString => EmptyString
  | String c s' => if isSpace c then trimStart s' else s
  end.

Fixpoint trimEnd (s : string) : string :=
  match s with
  | EmptyString => EmptyString
  | String c s' =>
      match trimEnd s' with
      | EmptyString => if isSpace c then EmptyString else str c
      | t => String c t
      end
  end.

Definition trim (s : string) : string := trimEnd (trimStart s).

(** [s.replace] with the global pattern for one double quote and the
    replacement made of two double quotes. *)
Fixpoint doubleQuotes (s : string) : string :=
  match s with
  | EmptyString => EmptyString
  | String c s' =>
      if Ascii.eqb c dquote then String dquote (String dquote (doubleQuotes s'))
      else String c (doubleQuotes s')
  end.

(** [s.padStart(2, "0")]. *)
Definition padStart2 (s : string) : string :=
  match s with
  | EmptyString => "00"
  | String c EmptyString => String "0" (str c)
  | _ => s
  end.

(** [String(n)] for an integer Number. *)
Definition ofZ (n : Z) : string := NilZero.string_of_int (Z.to_int n).

End JsString.

(** ** Identity resolver *)

(** The fields of a [URL] object that the script reads: [hostname],
    [pathname] and the decoded pairs of [searchParams], in order. *)
Record URL := {
  hostname : string;
  pathname : string;
  searchParams : list (string * string)
}.

(** [url.searchParams.get(name)]: the first value for [name], or [null]. *)
Fixpoint searchParams_get (params : list (string * string)) (name : string)
  : option string :=
  match params with
  | [] => None
  | (k, v) :: rest => if String.eqb k name then Some v else searchParams_get rest name
  end.

(** Truthiness of a value that is a string or [null]. *)
Definition truthy (v : option string) : bool :=
  match v with
  | Some s => negb (JsString.isEmpty s)
  | None => false
  end.

(** [pathname.split("/").filter(Boolean)]. *)
Definition pathSegments (path : string) : list string :=
  List.filter (fun seg => negb (JsString.isEmpty seg)) (JsString.split "/" path).

Section IdentityResolver.

(** The platform's [new URL(urlString)]: [None] when the constructor throws
    a [TypeError]. *)
Variable parseURL : string -> option URL.

Definition getVideoIdFromUrl (urlString : string) : option string :=
  match parseURL urlString with
  | None => None
  | Some url =>
      let host := hostname url in
      if truthy (searchParams_get (searchParams url) "v")
      then searchParams_get (searchParams url) "v"
      else
        match JsString.matchSegment "/embed/" (pathname url) with
        | Some embedMatch => Some embedMatch
        | None =>
            match JsString.matchSegment "/shorts/" (pathname url) with
            | Some shortsMatch => Some shortsMatch
            | None =>
                if JsString.includes "youtu.be" host
                then head (pathSegments (pathname url))
                else None
            end
        end
  end.

End IdentityResolver.

(** ** Numbers *)

(** A Number that may be anything: an index handed to [deleteTimestamp], a
    position or a duration reported by a playback element.  A finite Number
    is a rational here.  No arithmetic is done on them below, only
    comparisons and the truncation to an integer, which are exact. *)
Inductive JSNumber :=
| NaN
| Infinite (negative : bool)
| Finite (q : Q).

Module JsMath.

(** [a <= b], false when either is [NaN]. *)
Definition leb (a b : JSNumber) : bool :=
  match a, b with
  | NaN, _ | _, NaN => false
  | Infinite true, _ => true
  | _, Infinite false => true
  | Infinite false, _ => false
  | _, Infinite true => false
  | Finite x, Finite y => Qle_bool x y
  end.

(** [Math.max(a, b)] and [Math.min(a, b)]. *)
Definition max (a b : JSNumber) : JSNumber :=
  match a, b with
  | NaN, _ | _, NaN => NaN
  | _, _ => if leb a b then b else a
  end.

Definition min (a b : JSNumber) : JSNumber :=
  match a, b with
  | NaN, _ | _, NaN => NaN
  | _, _ => if leb a b then a else b
  end.

(** [isFinite(a)]. *)
Definition isFinite (a : JSNumber) : bool :=
  match a with Finite _ => true | _ => false end.

(** Truthiness of a Number: zero and [NaN] are falsy. *)
Definition truthy (a : JSNumber) : bool :=
  match a with
  | NaN => false
  | Infinite _ => true
  | Finite q => negb (Qeq_bool q 0)
  end.

(** [a || b]. *)
Definition orElse (a b : JSNumber) : JSNumber := if truthy a then a else b.

(** [a < b], false when either is [NaN]. *)
Definition ltb (a b : JSNumber) : bool := leb a b && negb (leb b a).

(** The Number of an integer. *)
Definition ofZ (n : Z) : JSNumber := Finite (inject_Z n).

(** The integer part of a rational, rounding towards zero. *)
Definition truncate (q : Q) : Z :=
  if Qle_bool 0 q then Qfloor q else Qceiling q.

End JsMath.

(** ** JavaScript values held by the bookmark list and by the storage *)

(** An array element [JUndefined] stands for a hole: stored data is JSON and
    has no [undefined], and the script itself never writes one into a list.
    [JNum] holds an integer Number. *)
Inductive JSValue : Type :=
| JUndefined
| JNull
| JBool (b : bool)
| JNum (n : Z)
| JStr (s : string)
| JArr (items : list JSValue)
| JObj (props : list (string * JSValue)).

(** [Array.isArray(v)]. *)
Definition isArray (v : JSValue) : bool :=
  match v with JArr _ => true | _ => false end.

(** Truthiness of a value. *)
Definition truthyValue (v : JSValue) : bool :=
  match v with
  | JUndefined | JNull => false
  | JBool b => b
  | JNum n => negb (n =? 0)
  | JStr s => negb (JsString.isEmpty s)
  | JArr _ | JObj _ => true
  end.

Module JsObject.

(** [o[k]] on the own properties of a plain object. *)
Fixpoint get (props : list (string * JSValue)) (k : string) : JSValue :=
  match props with
  | [] => JUndefined
  | (k', v) :: rest => if String.eqb k' k then v else get rest k
  end.

(** [o[k] = v]: an existing property keeps its place, a new one goes last. *)
Fixpoint set (k : string) (v : JSValue) (props : list (string * JSValue))
  : list (string * JSValue) :=
  match props with
  | [] => [(k, v)]
  | (k', v') :: rest =>
      if String.eqb k' k then (k, v) :: rest else (k', v') :: set k v rest
  end.

Fixpoint indexedChars (i : nat) (s : string) : list (string * JSValue) :=
  match s with
  | EmptyString => []
  | String c s' =>
      (JsString.ofZ (Z.of_nat i), JStr (JsString.str c)) :: indexedChars (S i) s'
  end.

Fixpoint indexedItems (i : nat) (items : list JSValue) : list (string * JSValue) :=
  match items with
  | [] => []
  | JUndefined :: rest => indexedItems (S i) rest
  | v :: rest => (JsString.ofZ (Z.of_nat i), v) :: indexedItems (S i) rest
  end.

(** The own enumerable properties that [{...v}] copies. *)
Definition ownProps (v : JSValue) : list (string * JSValue) :=
  match v with
  | JObj props => props
  | JStr s => indexedChars 0 s
  | JArr items => indexedItems 0 items
  | JUndefined | JNull | JBool _ | JNum _ => []
  end.

End JsObject.

Module JsArray.

(** [a[i]] for an integer [i]. *)
Definition get (a : list JSValue) (i : Z) : JSValue :=
  if i <? 0 then JUndefined else default JUndefined (a !! Z.to_nat i).

(** [a[i] = v] for an integer [i], as far as the elements go: inside the
    array the element is replaced; from [a.length] up to the largest array
    index the array grows, with holes in between; any other [i] names a
    plain property of the array object and leaves the elements alone. *)
Definition set (a : list JSValue) (i : Z) (v : JSValue) : list JSValue :=
  if i <? 0 then a
  else if i <? Z.of_nat (length a) then <[Z.to_nat i := v]> a
  else if i <? 4294967295
       then a ++ replicate (Z.to_nat i - length a) JUndefined ++ [v]
       else a.

(** The start position that [a.splice(start, 1)] computes for an array of
    length [len]: [start] goes through [ToIntegerOrInfinity] ([NaN] is 0, a
    fraction loses its fractional part), a negative position counts from the
    end, and the result is kept within [0, len]. *)
Definition spliceStart (len : Z) (start : JSNumber) : Z :=
  match start with
  | NaN => 0
  | Infinite true => 0
  | Infinite false => len
  | Finite q =>
      let t := JsMath.truncate q in
      if t <? 0 then Z.max (len + t) 0 else Z.min t len
  end.

(** [a.splice(start, 1)], as far as [a] goes: the element at the start
    position is removed, if there is one. *)
Definition splice1 (a : list JSValue) (start : JSNumber) : list JSValue :=
  delete (Z.to_nat (spliceStart (Z.of_nat (length a)) start)) a.

End JsArray.

(** The object that [saveTimestamp] pushes: [{ time: ..., note: ... }]. *)
Definition bookmark (time : Z) (note : string) : JSValue :=
  JObj [("time", JNum time); ("note", JStr note)].

(** [{ ...item, note: newNote }]. *)
Definition withNote (item : JSValue) (newNote : string) : JSValue :=
  JObj (JsObject.set "note" (JStr newNote) (JsObject.ownProps item)).

(** ** Persistent storage *)

(** The copy of a value that [chrome.storage.local] keeps, which is what
    JSON can express: a hole of an array is kept as [null], a property whose
    value is [undefined] is left out, every other value is copied part by
    part. *)
Fixpoint jsonCopy (v : JSValue) : JSValue :=
  match v with
  | JUndefined => JNull
  | JArr items =>
      JArr ((fix elements (l : list JSValue) : list JSValue :=
               match l with
               | [] => []
               | x :: rest => jsonCopy x :: elements rest
               end) items)
  | JObj props =>
      JObj ((fix fields (l : list (string * JSValue)) : list (string * JSValue) :=
               match l with
               | [] => []
               | (k, JUndefined) :: rest => fields rest
               | (k, x) :: rest => (k, jsonCopy x) :: fields rest
               end) props)
  | JNull | JBool _ | JNum _ | JStr _ => v
  end.

(** The copy of the object stored under the key [timestamps]. *)
Definition jsonCopyAll (all : gmap string JSValue) : gmap string JSValue :=
  omap (fun v => match v with
                 | JUndefined => None
                 | _ => Some (jsonCopy v)
                 end) all.

(** [chrome.storage.local], as a key-value mapping that gives back a copy of
    what was stored.  [timestamps] is the object stored under that key, if any.
    [pendingErrors] tells, for the calls to come and in their order, whether
    [chrome.runtime.lastError] is set when the call completes; past its end
    every call succeeds. *)
Record Storage := {
  timestamps : option (gmap string JSValue);
  pendingErrors : list bool
}.

Inductive StorageCall :=
| CallGet
| CallSet (all : gmap string JSValue).

(** [storageGet({ timestamps: {} })] followed by [r.timestamps || {}]: [None]
    when the promise is rejected. *)
Definition storageGet (st : Storage)
  : option (gmap string JSValue) * Storage :=
  match pendingErrors st with
  | [] => (Some (default ∅ (timestamps st)), st)
  | failed :: later =>
      let st' := {| timestamps := timestamps st; pendingErrors := later |} in
      (if failed : bool then None else Some (default ∅ (timestamps st)), st')
  end.

(** [storageSet({ timestamps: all })]: [false] when the promise is rejected;
    otherwise the storage holds a copy of [all]. *)
Definition storageSet (all : gmap string JSValue) (st : Storage)
  : bool * Storage :=
  match pendingErrors st with
  | [] => (true, {| timestamps := Some (jsonCopyAll all); pendingErrors := [] |})
  | failed :: later =>
      if failed : bool
      then (false, {| timestamps := timestamps st; pendingErrors := later |})
      else (true, {| timestamps := Some (jsonCopyAll all); pendingErrors := later |})
  end.

(** ** Module state *)

(** A row of the [.timestamp-list] element, by the data it is drawn from. *)
Inductive Row :=
| RowEmpty
| RowItem (index : nat) (item : JSValue).

(** The overlay element [#timestamp-saver-container]. *)
Record Panel := { rows : list Row }.

(** The module variables [videoId], [savedTimestamps] and [container], the
    host page ([secondary]: the side panel region exists), the storage and
    the storage calls issued so far.  The playback element and the scrub-bar
    markers belong to the host page and are not part of the state. *)
Record State := {
  videoId : option string;
  savedTimestamps : list JSValue;
  container : option Panel;
  secondary : bool;
  store : Storage;
  calls : list StorageCall
}.

Definition initialState (page : bool) (st : Storage) : State :=
  {| videoId := None; savedTimestamps := []; container := None;
     secondary := page; store := st; calls := [] |}.

Definition setVideoId (v : option string) (s : State) : State :=
  {| videoId := v; savedTimestamps := savedTimestamps s;
     container := container s; secondary := secondary s;
     store := store s; calls := calls s |}.

Definition setSavedTimestamps (l : list JSValue) (s : State) : State :=
  {| videoId := videoId s; savedTimestamps := l;
     container := container s; secondary := secondary s;
     store := store s; calls := calls s |}.

Definition setContainer (c : option Panel) (s : State) : State :=
  {| videoId := videoId s; savedTimestamps := savedTimestamps s;
     container := c; secondary := secondary s;
     store := store s; calls := calls s |}.

Definition setStore (st : Storage) (issued : list StorageCall) (s : State) : State :=
  {| videoId := videoId s; savedTimestamps := savedTimestamps s;
     container := container s; secondary := secondary s;
     store := st; calls := calls s ++ issued |}.

(** The property key that [all[id]] uses. *)
Definition propertyKey (id : option string) : string :=
  match id with
  | Some x => x
  | None => "null"
  end.

(** [all[key] = v] on the object read from the storage.  The key
    [__proto__] names an accessor of [Object.prototype]: unless [all] has a
    property of its own by that name, the assignment runs the inherited
    setter, which changes the prototype of [all] and adds no property.  The
    prototype is not part of what [storageSet] copies. *)
Definition assignProperty (key : string) (v : JSValue)
    (all : gmap string JSValue) : gmap string JSValue :=
  if String.eqb key "__proto__"
  then match all !! key with
       | Some _ => <[key := v]> all
       | None => all
       end
  else <[key := v]> all.

(** ** Formatting *)

(** [formatTime(seconds)] for an integer Number below [2^53] in size, on
    which the script's floating-point arithmetic is exact: [Math.floor] of
    the quotient is [Z.div], [%] is the remainder with the sign of the
    dividend, [Z.rem], and [String] prints the decimal digits. *)
Definition formatTime (seconds : Z) : string :=
  let s := seconds in
  let hrs := s / 3600 in
  let mins := Z.rem s 3600 / 60 in
  let secs := Z.rem s 60 in
  (if 0 <? hrs then JsString.padStart2 (JsString.ofZ hrs) +:+ ":" else "")
  +:+ JsString.padStart2 (JsString.ofZ mins) +:+ ":"
  +:+ JsString.padStart2 (JsString.ofZ secs).

(** ** Storage cycle *)

(** [loadSavedTimestampsForVideo(id)]: a falsy [id] empties the list without
    a storage call; a rejected read is caught and empties it too. *)
Definition loadSavedTimestampsForVideo (id : option string) (s : State) : State :=
  if negb (truthy id) then setSavedTimestamps [] s
  else
    match storageGet (store s) with
    | (Some all, st) =>
        let entry := all !! propertyKey id in
        setSavedTimestamps
          (match entry with
           | Some (JArr items) => items
           | _ => []
           end)
          (setStore st [CallGet] s)
    | (None, st) =>
        setSavedTimestamps [] (setStore st [CallGet] s)
    end.

(** [persistSavedTimestampsForVideo(id)]: a rejected read or write is caught
    and logged. *)
Definition persistSavedTimestampsForVideo (id : option string) (s : State) : State :=
  match storageGet (store s) with
  | (Some all, st) =>
      let all' := assignProperty (propertyKey id) (JArr (savedTimestamps s)) all in
      let '(_, st') := storageSet all' st in
      setStore st' [CallGet; CallSet all'] s
  | (None, st) => setStore st [CallGet] s
  end.

(** ** Overlay *)

Definition destroyContainer (s : State) : State :=
  match container s with
  | Some _ => setContainer None s
  | None => s
  end.

(** The overlay element is only ever created here and is tracked by
    [container], so the look-up of an element that already carries the
    overlay's id finds nothing when [container] is [null]. *)
Definition createContainerIfNeeded (s : State) : State :=
  if negb (truthy (videoId s)) then s
  else
    match container s with
    | Some _ => s
    | None =>
        if negb (secondary s) then s
        else setContainer (Some {| rows := [] |}) s
    end.

(** The rows that [savedTimestamps.forEach((item, i) => ...)] appends:
    [forEach] skips holes, and reading [item.time] of a [null] item throws
    before the row of that item is appended, which ends the loop and leaves
    the rows appended so far. *)
Fixpoint itemRows (i : nat) (items : list JSValue) : list Row :=
  match items with
  | [] => []
  | JUndefined :: rest => itemRows (S i) rest
  | JNull :: _ => []
  | item :: rest => RowItem i item :: itemRows (S i) rest
  end.

Definition listRows (items : list JSValue) : list Row :=
  match items with
  | [] => [RowEmpty]
  | _ => itemRows 0 items
  end.

(** When no overlay element can be had, [container.querySelector] throws,
    and so does the loop at a [null] item; nothing that follows a call of
    [renderTimestampList] in a handler touches the state modelled here. *)
Definition renderTimestampList (s : State) : State :=
  let s' := createContainerIfNeeded s in
  match container s' with
  | Some _ => setContainer (Some {| rows := listRows (savedTimestamps s') |}) s'
  | None => s'
  end.

(** ** Operations on the bookmark list *)

(** [saveTimestamp(time, note)], for an integer Number [time] (a position in
    whole seconds) and a string [note]. *)
Definition saveTimestamp (time : Z) (note : string) (s : State) : State :=
  if negb (truthy (videoId s)) then s
  else
    let s1 := setSavedTimestamps (savedTimestamps s ++ [bookmark time note]) s in
    renderTimestampList (persistSavedTimestampsForVideo (videoId s1) s1).

(** [deleteTimestamp(index)], for any Number [index]: both comparisons of
    the guard are false of [NaN]. *)
Definition deleteTimestamp (index : JSNumber) (s : State) : State :=
  let n := JsMath.ofZ (Z.of_nat (length (savedTimestamps s))) in
  if JsMath.ltb index (JsMath.ofZ 0) || JsMath.leb n index then s
  else
    let s1 := setSavedTimestamps (JsArray.splice1 (savedTimestamps s) index) s in
    renderTimestampList (persistSavedTimestampsForVideo (videoId s1) s1).

(** The [focusout] handler of the list, for an event whose target is the note
    input of the row with [dataset.index = idx] and whose [value] is
    [inputValue].  The handler does not await [persist]: its storage calls
    complete after the redraw, which touches nothing that they read or
    write. *)
Definition noteInputFocusOut (idx : Z) (inputValue : string) (s : State) : State :=
  let newNote := JsString.trim inputValue in
  let s1 :=
    setSavedTimestamps
      (JsArray.set (savedTimestamps s) idx
         (withNote (JsArray.get (savedTimestamps s) idx) newNote)) s in
  renderTimestampList (persistSavedTimestampsForVideo (videoId s1) s1).

(** The [click] handler of the clear button; [confirmed] is the answer to the
    confirmation prompt. *)
Definition clearAllClick (confirmed : bool) (s : State) : State :=
  if negb confirmed then s
  else
    let s1 := setSavedTimestamps [] s in
    renderTimestampList (persistSavedTimestampsForVideo (videoId s1) s1).

(** ** CSV export *)

Inductive ExportResult :=
| Downloaded (csv : string)   (** the blob handed to the download link *)
| NothingToExport             (** the alert; no file *)
| Threw                       (** a [TypeError] escapes the handler *)
| Uncoerced.                  (** an item whose time is not a Number: the
                                  coercions of such a value are not modelled *)

Definition csvHeader : string :=
  "TimeSeconds,TimeFormatted,Note" +:+ JsString.str JsString.newline.

(** The text appended for one item whose time is the Number [time] and whose
    note, after [s.note || ""], is [note]. *)
Definition csvRow (time : Z) (note : string) : string :=
  let q := JsString.str JsString.dquote in
  JsString.ofZ time +:+ "," +:+ q +:+ formatTime time +:+ q +:+ ","
  +:+ q +:+ JsString.doubleQuotes note +:+ q +:+ JsString.str JsString.newline.

(** [s.note] and [s.time]: [None] when reading a property throws. *)
Definition itemProp (item : JSValue) (k : string) : option JSValue :=
  match item with
  | JUndefined | JNull => None
  | JObj props => Some (JsObject.get props k)
  | JBool _ | JNum _ | JStr _ | JArr _ => Some JUndefined
  end.

(** The body of the [forEach] callback of the export, applied to the text
    built so far. *)
Definition csvAppend (csv : string) (item : JSValue) : ExportResult :=
  match itemProp item "note" with
  | None => Threw
  | Some n =>
      let n' := if truthyValue n then n else JStr "" in
      match n' with
      | JStr note =>
          match itemProp item "time" with
          | Some (JNum time) => Downloaded (csv +:+ csvRow time note)
          | _ => Uncoerced
          end
      | _ => Threw
      end
  end.

Fixpoint csvForEach (csv : string) (items : list JSValue) : ExportResult :=
  match items with
  | [] => Downloaded csv
  | JUndefined :: rest => csvForEach csv rest
  | item :: rest =>
      match csvAppend csv item with
      | Downloaded csv' => csvForEach csv' rest
      | r => r
      end
  end.

(** [exportTimestampsAsCSV()]: the text of the exported file.  The file name,
    taken from the page title, is not modelled. *)
Definition exportTimestampsAsCSV (s : State) : ExportResult :=
  match savedTimestamps s with
  | [] => NothingToExport
  | items => csvForEach csvHeader items
  end.

(** ** Resynchronization *)

Section Navigation.

Variable parseURL : string -> option URL.

(** [onUrlChange()], with [href] the value of [location.href] when the
    handler runs.  Rebinding the playback element and drawing the markers
    act on the host page only. *)
Definition onUrlChange (href : string) (s : State) : State :=
  let newId := getVideoIdFromUrl parseURL href in
  if decide (newId = videoId s) then s
  else
    let s1 := setVideoId newId s in
    if negb (truthy (videoId s1))
    then destroyContainer (setSavedTimestamps [] s1)
    else
      let s2 := loadSavedTimestampsForVideo (videoId s1) s1 in
      renderTimestampList (createContainerIfNeeded s2).

End Navigation.

(** ** The resolution order, as cases *)

(** The four ways to find an identifier in a URL. *)
Definition queryId (url : URL) : option string :=
  let v := searchParams_get (searchParams url) "v" in
  if truthy v then v else None.

Definition embedId (url : URL) : option string :=
  JsString.matchSegment "/embed/" (pathname url).

Definition shortsId (url : URL) : option string :=
  JsString.matchSegment "/shorts/" (pathname url).

Definition shortLinkId (url : URL) : option string :=
  if JsString.includes "youtu.be" (hostname url)
  then head (pathSegments (pathname url))
  else None.

(** The first candidate that matched, [None] when none did. *)
Fixpoint firstMatch (candidates : list (option string)) : option string :=
  match candidates with
  | [] => None
  | Some id :: _ => Some id
  | None :: rest => firstMatch rest
  end.

(** The resolver as the specification words it: query parameter, short-link
    path segment, embedded-player path segment, short-form path segment. *)
Definition resolveIdentifier_spec (parseURL : string -> option URL)
    (locationUrl : string) : option string :=
  match parseURL locationUrl with
  | None => None
  | Some url => firstMatch [queryId url; shortLinkId url; embedId url; shortsId url]
  end.

(** What [new URL] yields on a few location strings. *)
Definition sampleURLs : list (string * URL) :=
  [ ("https://www.youtube.com/watch?v=abc123",
     {| hostname := "www.youtube.com"; pathname := "/watch";
        searchParams := [("v", "abc123")] |});
    ("https://youtu.be/abc123",
     {| hostname := "youtu.be"; pathname := "/abc123"; searchParams := [] |});
    ("https://www.youtube.com/embed/abc123",
     {| hostname := "www.youtube.com"; pathname := "/embed/abc123";
        searchParams := [] |});
    ("https://www.youtube.com/shorts/abc123",
     {| hostname := "www.youtube.com"; pathname := "/shorts/abc123";
        searchParams := [] |});
    ("https://www.youtube.com/feed/subscriptions",
     {| hostname := "www.youtube.com"; pathname := "/feed/subscriptions";
        searchParams := [] |});
    ("https://www.youtube.com/watch?v=",
     {| hostname := "www.youtube.com"; pathname := "/watch";
        searchParams := [("v", "")] |});
    ("https://youtu.be/embed/xyz",
     {| hostname := "youtu.be"; pathname := "/embed/xyz"; searchParams := [] |});
    ("https://www.youtube.com/watch?v=__proto__",
     {| hostname := "www.youtube.com"; pathname := "/watch";
        searchParams := [("v", "__proto__")] |}) ].

Fixpoint sampleParse_in (table : list (string * URL)) (s : string) : option URL :=
  match table with
  | [] => None
  | (k, url) :: rest => if String.eqb k s then Some url else sampleParse_in rest s
  end.

(** A stand-in for [new URL] that knows [sampleURLs] and throws on every
    other string. *)
Definition sampleParse (s : string) : option URL := sampleParse_in sampleURLs s.

(** ** Events *)

(** What the event handlers of the script receive: a navigation signal with
    the location it finds, and the user's actions on the overlay (the save
    button with a playback position in whole seconds, a delete button and a
    note input with the index of their row, the clear button with the answer
    to its prompt). *)
Inductive Event :=
| UrlChanged (href : string)
| SaveClicked (time : Z)
| DeleteClicked (index : Z)
| NoteFocusOut (idx : Z) (inputValue : string)
| ClearClicked (confirmed : bool).

(** The module invariant of handlers that do not overlap: without an active
    identifier there is neither a list nor an overlay. *)
Definition Consistent (s : State) : Prop :=
  videoId s = None -> savedTimestamps s = [] /\ container s = None.

Section Handlers.

Variable parseURL : string -> option URL.

(** The handler of one event, run on its own. *)
Definition handle (e : Event) (s : State) : State :=
  match e with
  | UrlChanged href => onUrlChange parseURL href s
  | SaveClicked time => saveTimestamp time "" s
  | DeleteClicked index => deleteTimestamp (JsMath.ofZ index) s
  | NoteFocusOut idx inputValue => noteInputFocusOut idx inputValue s
  | ClearClicked confirmed => clearAllClick confirmed s
  end.

End Handlers.

(** ** Sample data *)

(** A storage whose calls all succeed. *)
Definition reliable (stored : option (gmap string JSValue)) : Storage :=
  {| timestamps := stored; pendingErrors := [] |}.

Definition twoBookmarks : list JSValue := [bookmark 5 ""; bookmark 130 "intro"].

Definition otherEntries : gmap string JSValue :=
  {[ "other" := JArr [bookmark 1 "x"]; "broken" := JStr "oops" ]}.

(** A page showing the two bookmarks of video [abc123]. *)
Definition watching : State :=
  {| videoId := Some "abc123";
     savedTimestamps := twoBookmarks;
     container := Some {| rows := listRows twoBookmarks |};
     secondary := true;
     store := reliable (Some (<["abc123" := JArr twoBookmarks]> otherEntries));
     calls := [] |}.

(** The same bookmarks held under the empty identifier. *)
Definition emptyIdentifier : State := setVideoId (Some "") watching.

(** The same bookmarks held while the page is at [watch?v=__proto__]. *)
Definition watchingProto : State := setVideoId (Some "__proto__") watching.

(** No video is active. *)
Definition idle : State := initialState true (reliable (Some otherEntries)).

(** The export of [twoBookmarks] as the specification prints it, with a space
    between the empty note and the line feed. *)
Definition csvScenario_spec : string :=
  let q := JsString.str JsString.dquote in
  let nl := JsString.str JsString.newline in
  "TimeSeconds,TimeFormatted,Note" +:+ nl
  +:+ "5," +:+ q +:+ "00:05" +:+ q +:+ "," +:+ q +:+ q +:+ " " +:+ nl
  +:+ "130," +:+ q +:+ "02:10" +:+ q +:+ "," +:+ q +:+ "intro" +:+ q +:+ nl.

(** The same text without that space. *)
Definition csvScenario : string :=
  let q := JsString.str JsString.dquote in
  let nl := JsString.str JsString.newline in
  "TimeSeconds,TimeFormatted,Note" +:+ nl
  +:+ "5," +:+ q +:+ "00:05" +:+ q +:+ "," +:+ q +:+ q +:+ nl
  +:+ "130," +:+ q +:+ "02:10" +:+ q +:+ "," +:+ q +:+ "intro" +:+ q +:+ nl.

(** Reading a quoted CSV field back: two double quotes stand for one. *)
Fixpoint undoubleQuotes (s : string) : string :=
  match s with
  | EmptyString => EmptyString
  | String c s' =>
      if Ascii.eqb c JsString.dquote
      then match s' with
           | String _ s'' => String JsString.dquote (undoubleQuotes s'')
           | EmptyString => JsString.str c
           end
      else String c (undoubleQuotes s')
  end.

(** The rows of a list of well-formed bookmarks. *)
Fixpoint csvRows (bs : list (Z * string)) : string :=
  match bs with
  | [] => EmptyString
  | (time, note) :: rest => csvRow time note +:+ csvRows rest
  end.

Definition bookmarks (bs : list (Z * string)) : list JSValue :=
  List.map (fun b => bookmark (fst b) (snd b)) bs.

(** Every character of [s] passes [f]. *)
Fixpoint allChars (f : ascii -> bool) (s : string) : bool :=
  match s with
  | EmptyString => true
  | String c s' => f c && allChars f s'
  end.

(** ** Stored entries and further invariants *)

(** The entry of identifier [X] in the persisted mapping. *)
Definition entryOf (s : State) (X : string) : option JSValue :=
  default ∅ (timestamps (store s)) !! X.

(** The list that [load] takes from that entry. *)
Definition storedList (s : State) (X : string) : list JSValue :=
  match entryOf s X with
  | Some (JArr items) => items
  | _ => []
  end.

(** The in-memory list is the one stored for the active identifier. *)
Definition Synced (s : State) : Prop :=
  forall X, videoId s = Some X -> savedTimestamps s = storedList s X.

(** The rows of the overlay are those of the in-memory list. *)
Definition Rendered (s : State) : Prop :=
  forall p, container s = Some p -> rows p = listRows (savedTimestamps s).

(** The list is JSON data, of which the storage keeps an equal copy: it has
    no hole and no [undefined] inside. *)
Definition Storable (l : list JSValue) : Prop :=
  jsonCopy (JArr l) = JArr l.

(** The persisted mapping is JSON data, as everything read from the storage
    is. *)
Definition JsonStore (s : State) : Prop :=
  forall X v, entryOf s X = Some v -> v <> JUndefined /\ jsonCopy v = v.


(** [s] starts, respectively ends, with a white space character. *)
Definition startsWithSpace (s : string) : bool :=
  match s with
  | EmptyString => false
  | String c _ => JsString.isSpace c
  end.

Fixpoint endsWithSpace (s : string) : bool :=
  match s with
  | EmptyString => false
  | String c EmptyString => JsString.isSpace c
  | String _ s' => endsWithSpace s'
  end.

(** ** Reading a displayed time back *)

(** A decimal digit. *)
Definition isDigit (c : ascii) : bool :=
  let n := nat_of_ascii c in (48 <=? n)%nat && (n <=? 57)%nat.

(** The integer that a run of digits writes. *)
Definition parseSegment (s : string) : option Z :=
  Z.of_int <$> NilZero.int_of_string s.

(** The seconds that a text of the shape [MM:SS] or [HH:MM:SS] stands for. *)
Definition parseTime (text : string) : option Z :=
  match JsString.split ":" text with
  | [m; s] =>
      match parseSegment m, parseSegment s with
      | Some mins, Some secs => Some (60 * mins + secs)
      | _, _ => None
      end
  | [h; m; s] =>
      match parseSegment h, parseSegment m, parseSegment s with
      | Some hrs, Some mins, Some secs => Some (3600 * hrs + 60 * mins + secs)
      | _, _, _ => None
      end
  | _ => None
  end.

(** ** File name of the export *)

Module Filename.

(** The class [\w]. *)
Definition isWordChar (c : ascii) : bool :=
  let n := nat_of_ascii c in
  ((48 <=? n)%nat && (n <=? 57)%nat)
  || ((65 <=? n)%nat && (n <=? 90)%nat)
  || ((97 <=? n)%nat && (n <=? 122)%nat)
  || (n =? 95)%nat.

(** The characters that [[^\w\s-]] does not match, for ASCII text. *)
Definition isSafeChar (c : ascii) : bool :=
  isWordChar c || JsString.isSpace c || Ascii.eqb c "-".

(** [s.replace(/[^\w\s-]/g, "_")]. *)
Fixpoint replaceUnsafe (s : string) : string :=
  match s with
  | EmptyString => EmptyString
  | String c s' =>
      String (if isSafeChar c then c else "_"%char) (replaceUnsafe s')
  end.

(** [s.slice(0, n)]. *)
Fixpoint slice0 (n : nat) (s : string) : string :=
  match n, s with
  | O, _ => EmptyString
  | _, EmptyString => EmptyString
  | S n', String c s' => String c (slice0 n' s')
  end.

(** [sanitizeFilename(s)] for a string [s] of ASCII characters. *)
Definition sanitizeFilename (s : string) : string :=
  slice0 60
    (JsString.trim
       (replaceUnsafe (if JsString.isEmpty s then "export" else s))).

(** [a || b] for a value that is a string, [undefined] or [null]. *)
Definition orString (a : option string) (b : string) : string :=
  match a with
  | Some x => if JsString.isEmpty x then b else x
  | None => b
  end.

(** The [filename] of [exportTimestampsAsCSV]: [h1Title] is the text of the
    page's [h1.title] element, [None] when there is no such element, and
    [documentTitle] is [document.title]. *)
Definition csvFilename (h1Title : option string) (documentTitle : string)
    (videoId : option string) : string :=
  let videoTitle :=
    JsString.trim
      (orString h1Title (orString (Some documentTitle) (orString videoId "timestamps"))) in
  "timestamps_" +:+ sanitizeFilename videoTitle +:+ ".csv".

End Filename.

(** ** Playback quantities *)

(** [clamp(v, a, b)]. *)
Definition clamp (v a b : JSNumber) : JSNumber :=
  JsMath.min (JsMath.max v a) b.

(** What the script reads from a playback element. *)
Record Player := {
  currentTime : JSNumber;
  duration : JSNumber
}.

(** The element that [getCurrentTimeSafe] and [renderProgressBarMarkers] end
    up with: the cached one while it is still part of the page ([inPage]),
    else the one that [getVideoPlayer()] finds. *)
Definition resolvePlayer (cached : option Player) (inPage : bool)
    (found : option Player) : option Player :=
  match cached with
  | Some p => if inPage then Some p else found
  | None => found
  end.

(** [getCurrentTimeSafe()], given the element it ends up with: without one
    the thrown error is caught and the result is 0. *)
Definition getCurrentTimeSafe (videoPlayer : option Player) : JSNumber :=
  match videoPlayer with
  | None => Finite 0
  | Some p =>
      JsMath.max (Finite 0)
        (JsMath.min (JsMath.orElse (currentTime p) (Finite 0))
                    (JsMath.orElse (duration p) (Infinite false)))
  end.

(** ** Seeking *)

(** [jumpToTimestamp(index)], given whether the variable [videoPlayer] holds
    an element: the value that is assigned to its [currentTime], [None] when
    the function returns without seeking. *)
Definition jumpToTimestamp (index : Z) (items : list JSValue)
    (hasPlayer : bool) : option JSValue :=
  let item := JsArray.get items index in
  if negb (truthyValue item) || negb hasPlayer then None
  else
    match item with
    | JObj props => Some (JsObject.get props "time")
    | _ => Some JUndefined
    end.

(** ** Scrub-bar markers *)

(** A marker, by its [left] percentage and the item it is drawn from (which
    gives its tooltip, its label and the time it seeks to). *)
Record Marker := {
  leftPercent : JSNumber;
  source : JSValue
}.

Section Markers.

(** The floating-point value of [(item.time / duration) * 100]. *)
Variable percentOf : JSValue -> JSNumber -> JSNumber.

(** The markers that [savedTimestamps.forEach((item) => ...)] appends:
    [forEach] skips holes, and reading [item.time] of a [null] item throws,
    which ends the loop in the function's [catch]. *)
Fixpoint drawMarkers (d : JSNumber) (items : list JSValue) : list Marker :=
  match items with
  | [] => []
  | JUndefined :: rest => drawMarkers d rest
  | JNull :: _ => []
  | item :: rest =>
      {| leftPercent := clamp (percentOf item d) (Finite 0) (Finite 100);
         source := item |} :: drawMarkers d rest
  end.

(** [renderProgressBarMarkers()], given the playback element it ends up with
    and the scrub bar it ends up with ([None]: there is none; [Some ms]: it
    holds the markers [ms]): the markers of the scrub bar afterwards. *)
Definition renderProgressBarMarkers (videoPlayer : option Player)
    (progressBar : option (list Marker)) (items : list JSValue)
  : option (list Marker) :=
  match progressBar, videoPlayer with
  | Some _, Some p =>
      let d := JsMath.orElse (duration p) (Finite 0) in
      if negb (JsMath.truthy d) || negb (JsMath.isFinite d)
      then Some []
      else Some (drawMarkers d items)
  | _, _ => progressBar
  end.

End Markers.

(** ** Element binder *)

(** The listeners that [attachVideoListeners] manages.  Elements are told
    apart by a number.  [listening] are the elements that carry the
    [timeupdate] listener, [videoRO] the targets of the observer held in the
    variable of that name ([None] before the first one is made), [stray] the
    targets of observers that the variable no longer holds. *)
Record Binder := {
  attachedVideo : option nat;
  listening : gset nat;
  videoRO : option (gset nat);
  stray : gset nat
}.

Definition unbound : Binder :=
  {| attachedVideo := None; listening := ∅; videoRO := None; stray := ∅ |}.

(** [attachVideoListeners(video)]; [resizeObserver] tells whether the page
    has a [ResizeObserver], without which the constructor throws. *)
Definition attachVideoListeners (resizeObserver : bool) (video : option nat)
    (b : Binder) : Binder :=
  if decide (attachedVideo b = video) then b
  else
    let b1 :=
      match attachedVideo b with
      | Some old =>
          {| attachedVideo := attachedVideo b;
             listening := listening b ∖ {[old]};
             videoRO := (fun _ => ∅) <$> videoRO b;
             stray := stray b |}
      | None => b
      end in
    match video with
    | None =>
        {| attachedVideo := None; listening := listening b1;
           videoRO := videoRO b1; stray := stray b1 |}
    | Some v =>
        if resizeObserver
        then {| attachedVideo := Some v;
                listening := {[v]} ∪ listening b1;
                videoRO := Some {[v]};
                stray := stray b1 ∪ default ∅ (videoRO b1) |}
        else {| attachedVideo := Some v;
                listening := {[v]} ∪ listening b1;
                videoRO := videoRO b1;
                stray := stray b1 |}
    end.

(** The elements that the binder should be attached to. *)
Definition boundSet (b : Binder) : gset nat :=
  match attachedVideo b with
  | Some v => {[v]}
  | None => ∅
  end.

(** The binder is attached to exactly the bound element. *)
Definition WellBound (resizeObserver : bool) (b : Binder) : Prop :=
  listening b = boundSet b
  /\ stray b = ∅
  /\ default ∅ (videoRO b) = (if resizeObserver then boundSet b else ∅).

(** A sequence of calls of [attachVideoListeners]. *)
Definition attachAll (resizeObserver : bool) (videos : list (option nat))
    (b : Binder) : Binder :=
  fold_left (fun b' v => attachVideoListeners resizeObserver v b') videos b.

(** A Number lies between [a] and [b]. *)
Definition between (a v b : JSNumber) : Prop :=
  JsMath.leb a v = true /\ JsMath.leb v b = true.

(** [watching], with a storage whose next read, respectively next write, is
    rejected. *)
Definition readRejected : State :=
  setStore {| timestamps := timestamps (store watching); pendingErrors := [true] |}
    [] watching.

Definition writeRejected : State :=
  setStore {| timestamps := timestamps (store watching);
              pendingErrors := [false; true] |}
    [] watching.

(** Case analysis on the tests of the overlay functions. *)
Ltac ui_cases :=
  unfold renderTimestampList, createContainerIfNeeded, destroyContainer,
    setContainer;
  repeat case_match; reflexivity.

(** * Properties *)

(** ** String primitives *)

Lemma isEmpty_true (s : string) : JsString.isEmpty s = true <-> s = "".
Proof. destruct s; simpl; split; congruence. Qed.

Lemma isEmpty_false (s : string) : JsString.isEmpty s = false <-> s <> "".
Proof. destruct s; simpl; split; congruence. Qed.

Lemma truthy_Some (v : option string) :
  truthy v = true <-> exists s, v = Some s /\ s <> "".
Proof.
  destruct v as [s|]; simpl.
  - rewrite negb_true_iff, isEmpty_false. split.
    + intros Hs. exists s. split; [reflexivity | exact Hs].
    + intros (s' & Heq & Hs). congruence.
  - split; [discriminate | intros (s' & Heq & _); discriminate].
Qed.

Lemma truthy_false (v : option string) :
  truthy v = false <-> v = None \/ v = Some "".
Proof.
  destruct v as [[|c s]|]; simpl; split; intros H; auto; try discriminate.
  - destruct H as [H|H]; discriminate.
Qed.

Lemma append_String (c : ascii) (a b : string) :
  String c a +:+ b = String c (a +:+ b).
Proof. reflexivity. Qed.

Lemma append_empty (b : string) : "" +:+ b = b.
Proof. reflexivity. Qed.

Lemma append_assoc (a b c : string) : (a +:+ b) +:+ c = a +:+ b +:+ c.
Proof.
  induction a as [|x a IH]; [reflexivity |].
  rewrite !append_String. f_equal. exact IH.
Qed.

Lemma append_nil_r (a : string) : a +:+ "" = a.
Proof.
  induction a as [|x a IH]; [reflexivity |].
  rewrite append_String. f_equal. exact IH.
Qed.

Lemma stripPrefix_Some (p s r : string) :
  JsString.stripPrefix p s = Some r -> s = p +:+ r.
Proof.
  revert s. induction p as [|a p IH]; intros s; simpl.
  - intros [= ->]. reflexivity.
  - destruct s as [|b s]; [discriminate |].
    destruct (Ascii.eqb a b) eqn:Hab; [| discriminate].
    apply Ascii.eqb_eq in Hab. subst b.
    intros Hp. rewrite (IH _ Hp). reflexivity.
Qed.

Lemma takeSeg_spec (s : string) :
  exists rest,
    s = JsString.takeSeg s +:+ rest
    /\ allChars JsString.isSegChar (JsString.takeSeg s) = true
    /\ (rest = "" \/ exists c r, rest = String c r /\ JsString.isSegChar c = false).
Proof.
  induction s as [|c s (rest & Hs & Hall & Hrest)]; simpl.
  - exists "". auto.
  - destruct (JsString.isSegChar c) eqn:Hc; simpl.
    + exists rest. rewrite Hc, Hall, append_String. split; [f_equal; exact Hs | auto].
    + exists (String c s). split; [reflexivity |]. split; [reflexivity |].
      right. eauto.
Qed.

Lemma matchSegmentHere_nonempty (lit s cap : string) :
  JsString.matchSegmentHere lit s = Some cap -> cap <> "".
Proof.
  unfold JsString.matchSegmentHere.
  destruct (JsString.stripPrefix lit s) as [rest|]; [| discriminate].
  destruct (JsString.isEmpty (JsString.takeSeg rest)) eqn:He; [discriminate |].
  intros [= <-]. apply isEmpty_false. exact He.
Qed.

Lemma matchSegment_nonempty (lit s cap : string) :
  JsString.matchSegment lit s = Some cap -> cap <> "".
Proof.
  induction s as [|c s IH]; simpl.
  - destruct (JsString.matchSegmentHere lit "") eqn:Hm; [| discriminate].
    intros [= <-]. eapply matchSegmentHere_nonempty; eassumption.
  - destruct (JsString.matchSegmentHere lit (String c s)) eqn:Hm.
    + intros [= <-]. eapply matchSegmentHere_nonempty; eassumption.
    + exact IH.
Qed.

(** A match of [/<lit>([^\/\?]+)/] cuts the subject into what precedes the
    literal, the literal, a non-empty captured run without [/] or [?], and a
    rest that the run could not be extended into. *)
Lemma matchSegment_sound (lit s cap : string) :
  JsString.matchSegment lit s = Some cap ->
  exists before rest,
    s = before +:+ lit +:+ cap +:+ rest
    /\ cap <> ""
    /\ allChars JsString.isSegChar cap = true
    /\ (rest = "" \/ exists c r, rest = String c r /\ JsString.isSegChar c = false).
Proof.
  assert (Hhere : forall t, JsString.matchSegmentHere lit t = Some cap ->
            exists rest, t = lit +:+ cap +:+ rest
              /\ cap <> ""
              /\ allChars JsString.isSegChar cap = true
              /\ (rest = "" \/ exists c r, rest = String c r
                                           /\ JsString.isSegChar c = false)).
  { intros t Ht. pose proof (matchSegmentHere_nonempty _ _ _ Ht) as Hne.
    unfold JsString.matchSegmentHere in Ht.
    destruct (JsString.stripPrefix lit t) as [after|] eqn:Hp; [| discriminate].
    destruct (JsString.isEmpty (JsString.takeSeg after)); [discriminate |].
    injection Ht as <-.
    destruct (takeSeg_spec after) as (rest & Hafter & Hall & Hrest).
    exists rest. apply stripPrefix_Some in Hp.
    split; [congruence | auto]. }
  induction s as [|c s IH]; simpl.
  - destruct (JsString.matchSegmentHere lit "") eqn:Hm; [| discriminate].
    intros [= ->]. destruct (Hhere _ Hm) as (rest & H1 & H2).
    exists "", rest. split; [exact H1 | exact H2].
  - destruct (JsString.matchSegmentHere lit (String c s)) eqn:Hm.
    + intros [= ->]. destruct (Hhere _ Hm) as (rest & H1 & H2).
      exists "", rest. split; [exact H1 | exact H2].
    + intros Hs. destruct (IH Hs) as (before & rest & H1 & H2).
      exists (String c before), rest. split; [| exact H2].
      rewrite append_String. f_equal. exact H1.
Qed.

Lemma pathSegments_nonempty (path seg : string) :
  head (pathSegments path) = Some seg -> seg <> "".
Proof.
  unfold pathSegments.
  induction (JsString.split "/" path) as [|x l IH]; simpl; [discriminate |].
  destruct (JsString.isEmpty x) eqn:Hx; simpl.
  - exact IH.
  - intros [= <-]. apply isEmpty_false. exact Hx.
Qed.

Lemma firstMatch_nonempty (candidates : list (option string)) (id : string) :
  Forall (fun c => c <> Some "") candidates ->
  firstMatch candidates = Some id -> id <> "".
Proof.
  induction 1 as [|c l Hc _ IH]; simpl; [discriminate |].
  destruct c as [x|]; [| exact IH].
  intros [= <-] ->. apply Hc. reflexivity.
Qed.

(** ** Identity resolver *)

Lemma queryId_nonempty (url : URL) : queryId url <> Some "".
Proof.
  unfold queryId.
  destruct (truthy (searchParams_get (searchParams url) "v")) eqn:Ht;
    [| discriminate].
  apply truthy_Some in Ht. destruct Ht as (v & -> & Hv). congruence.
Qed.

Lemma embedId_nonempty (url : URL) : embedId url <> Some "".
Proof. intros H. exact (matchSegment_nonempty _ _ _ H eq_refl). Qed.

Lemma shortsId_nonempty (url : URL) : shortsId url <> Some "".
Proof. intros H. exact (matchSegment_nonempty _ _ _ H eq_refl). Qed.

Lemma shortLinkId_nonempty (url : URL) : shortLinkId url <> Some "".
Proof.
  unfold shortLinkId. destruct (JsString.includes _ _); [| discriminate].
  intros H. exact (pathSegments_nonempty _ _ H eq_refl).
Qed.

Create HintDb resolver.
#[local] Hint Resolve queryId_nonempty embedId_nonempty shortsId_nonempty
  shortLinkId_nonempty : resolver.

(** The nested tests of the function are a first-match search over the four
    cases, in the order query, embed, shorts, short link. *)
Lemma getVideoIdFromUrl_firstMatch (parseURL : string -> option URL) (u : string) :
  getVideoIdFromUrl parseURL u =
  match parseURL u with
  | None => None
  | Some url => firstMatch [queryId url; embedId url; shortsId url; shortLinkId url]
  end.
Proof.
  unfold getVideoIdFromUrl, queryId, embedId, shortsId, shortLinkId.
  destruct (parseURL u) as [url|]; [| reflexivity]. simpl.
  destruct (truthy (searchParams_get (searchParams url) "v")) eqn:Ht.
  - apply truthy_Some in Ht. destruct Ht as (v & -> & _). reflexivity.
  - destruct (JsString.matchSegment "/embed/" (pathname url)); [reflexivity |].
    destruct (JsString.matchSegment "/shorts/" (pathname url)); [reflexivity |].
    destruct (JsString.includes "youtu.be" (hostname url)); [| reflexivity].
    destruct (head (pathSegments (pathname url))); reflexivity.
Qed.

Example resolve_query :
  getVideoIdFromUrl sampleParse "https://www.youtube.com/watch?v=abc123" = Some "abc123".
Proof. reflexivity. Qed.

Example resolve_short_link :
  getVideoIdFromUrl sampleParse "https://youtu.be/abc123" = Some "abc123".
Proof. reflexivity. Qed.

Example resolve_embed :
  getVideoIdFromUrl sampleParse "https://www.youtube.com/embed/abc123" = Some "abc123".
Proof. reflexivity. Qed.

Example resolve_shorts :
  getVideoIdFromUrl sampleParse "https://www.youtube.com/shorts/abc123" = Some "abc123".
Proof. reflexivity. Qed.

Example resolve_none :
  getVideoIdFromUrl sampleParse "https://www.youtube.com/feed/subscriptions" = None.
Proof. reflexivity. Qed.

Example resolve_empty_query :
  getVideoIdFromUrl sampleParse "https://www.youtube.com/watch?v=" = None.
Proof. reflexivity. Qed.

Example resolve_malformed : getVideoIdFromUrl sampleParse "not a url" = None.
Proof. reflexivity. Qed.

(** C5, as stated, fails: on a short-link host whose path also has an
    embedded-player segment, the order of the specification (short link
    before embed) picks the first path segment, [embed], while the function
    returns the embed capture, [xyz]. *)
Lemma getVideoIdFromUrl_not_spec_order :
  getVideoIdFromUrl sampleParse "https://youtu.be/embed/xyz" = Some "xyz"
  /\ resolveIdentifier_spec sampleParse "https://youtu.be/embed/xyz" = Some "embed"
  /\ getVideoIdFromUrl sampleParse "https://youtu.be/embed/xyz"
     <> resolveIdentifier_spec sampleParse "https://youtu.be/embed/xyz".
Proof. split; [reflexivity | split; [reflexivity | discriminate]]. Qed.

(** C5, amended: [getVideoIdFromUrl] inspects its input in the order query
    parameter [v], embedded-player path segment, short-form path segment,
    short-link path segment, and returns the first match; it returns [null]
    when none matches; and on every input string, also one that [new URL]
    rejects, it returns a value: [null] for a rejected string. *)
Theorem getVideoIdFromUrl_order (parseURL : string -> option URL) (u : string) :
  (forall url, parseURL u = Some url ->
     getVideoIdFromUrl parseURL u =
     firstMatch [queryId url; embedId url; shortsId url; shortLinkId url])
  /\ (forall url, parseURL u = Some url ->
        queryId url = None -> embedId url = None ->
        shortsId url = None -> shortLinkId url = None ->
        getVideoIdFromUrl parseURL u = None)
  /\ (parseURL u = None -> getVideoIdFromUrl parseURL u = None).
Proof.
  rewrite getVideoIdFromUrl_firstMatch. split; [| split].
  - intros url ->. reflexivity.
  - intros url -> -> -> -> ->. reflexivity.
  - intros ->. reflexivity.
Qed.

Lemma getVideoIdFromUrl_order_witness :
  getVideoIdFromUrl sampleParse "https://youtu.be/embed/xyz" = Some "xyz"
  /\ getVideoIdFromUrl sampleParse "https://www.youtube.com/feed/subscriptions" = None
  /\ getVideoIdFromUrl sampleParse "not a url" = None.
Proof.
  split; [| split].
  - exact (proj1 (getVideoIdFromUrl_order sampleParse "https://youtu.be/embed/xyz")
             _ eq_refl).
  - exact (proj1 (proj2 (getVideoIdFromUrl_order sampleParse
                           "https://www.youtube.com/feed/subscriptions"))
             _ eq_refl eq_refl eq_refl eq_refl eq_refl).
  - exact (proj2 (proj2 (getVideoIdFromUrl_order sampleParse "not a url")) eq_refl).
Defined.

(** C10: for every input string, whatever [new URL] makes of it,
    [getVideoIdFromUrl] returns [null] or a non-empty string, never the empty
    string. *)
Theorem getVideoIdFromUrl_never_empty (parseURL : string -> option URL) (u : string) :
  getVideoIdFromUrl parseURL u = None
  \/ exists id, getVideoIdFromUrl parseURL u = Some id /\ id <> "".
Proof.
  destruct (getVideoIdFromUrl parseURL u) as [id|] eqn:Hid; [right | left; reflexivity].
  exists id. split; [reflexivity |].
  rewrite getVideoIdFromUrl_firstMatch in Hid.
  destruct (parseURL u) as [url|]; [| discriminate].
  revert Hid. apply firstMatch_nonempty.
  repeat constructor; auto with resolver.
Qed.

(** ** Storage cycle *)

Lemma storageGet_reliable (st : Storage) :
  pendingErrors st = [] ->
  storageGet st = (Some (default ∅ (timestamps st)), st).
Proof. unfold storageGet. intros ->. reflexivity. Qed.

Lemma storageSet_reliable (all : gmap string JSValue) (st : Storage) :
  pendingErrors st = [] ->
  storageSet all st = (true, reliable (Some (jsonCopyAll all))).
Proof. unfold storageSet. intros ->. reflexivity. Qed.

(** With a storage that answers, [persist] reads the mapping, assigns one
    property and writes the mapping back, of which the storage keeps a
    copy. *)
Lemma persist_reliable (id : option string) (s : State) :
  pendingErrors (store s) = [] ->
  let all' := assignProperty (propertyKey id) (JArr (savedTimestamps s))
                (default ∅ (timestamps (store s))) in
  persistSavedTimestampsForVideo id s =
  setStore (reliable (Some (jsonCopyAll all'))) [CallGet; CallSet all'] s.
Proof.
  intros Hok. unfold persistSavedTimestampsForVideo.
  rewrite (storageGet_reliable _ Hok). cbv zeta.
  rewrite (storageSet_reliable _ _ Hok). reflexivity.
Qed.

Lemma load_reliable (X : string) (s : State) :
  X <> "" ->
  pendingErrors (store s) = [] ->
  loadSavedTimestampsForVideo (Some X) s =
  setSavedTimestamps
    (match default ∅ (timestamps (store s)) !! X with
     | Some (JArr items) => items
     | _ => []
     end)
    (setStore (store s) [CallGet] s).
Proof.
  intros HX Hok. unfold loadSavedTimestampsForVideo.
  replace (truthy (Some X)) with true
    by (symmetry; apply truthy_Some; eauto).
  simpl negb. cbv iota. rewrite (storageGet_reliable _ Hok). reflexivity.
Qed.

(** What [load] leaves in the list, whatever the storage does. *)
Lemma load_savedTimestamps (id : option string) (s : State) :
  savedTimestamps (loadSavedTimestampsForVideo id s) = [] \/
  exists X items,
    id = Some X /\ X <> ""
    /\ default ∅ (timestamps (store s)) !! X = Some (JArr items)
    /\ savedTimestamps (loadSavedTimestampsForVideo id s) = items.
Proof.
  unfold loadSavedTimestampsForVideo.
  destruct (truthy id) eqn:Hid; simpl; [| left; reflexivity].
  apply truthy_Some in Hid. destruct Hid as (X & -> & HX). simpl.
  unfold storageGet.
  destruct (pendingErrors (store s)) as [|[|] later]; simpl;
    try (left; reflexivity);
    (destruct (default ∅ (timestamps (store s)) !! X) as [[]|] eqn:He; simpl;
     try (left; reflexivity); right; eauto 6).
Qed.

(** The copy that the storage keeps, entry by entry. *)
Lemma jsonCopyAll_lookup (all : gmap string JSValue) (X : string) :
  jsonCopyAll all !! X =
  match all !! X with
  | Some JUndefined | None => None
  | Some v => Some (jsonCopy v)
  end.
Proof.
  unfold jsonCopyAll. rewrite lookup_omap.
  destruct (all !! X) as [[]|]; reflexivity.
Qed.

Lemma jsonCopy_JArr (l : list JSValue) :
  jsonCopy (JArr l) = JArr (List.map jsonCopy l).
Proof.
  simpl. f_equal.
Qed.

Lemma Storable_app (l1 l2 : list JSValue) :
  Storable (l1 ++ l2) <-> Storable l1 /\ Storable l2.
Proof.
  unfold Storable. rewrite !jsonCopy_JArr, List.map_app. split.
  - intros [= H]. apply app_inj_1 in H as [H1 H2];
      [| apply List.length_map]. split; congruence.
  - intros [[= H1] [= H2]]. congruence.
Qed.


(** An assignment under a key other than [__proto__] is an insertion; under
    every key, the other properties stay as they were. *)
Lemma assignProperty_insert (key : string) (v : JSValue)
    (all : gmap string JSValue) :
  key <> "__proto__" -> assignProperty key v all = <[key := v]> all.
Proof.
  intros Hkey. unfold assignProperty.
  destruct (String.eqb key "__proto__") eqn:He; [| reflexivity].
  apply String.eqb_eq in He. contradiction.
Qed.

Lemma assignProperty_other (key Y : string) (v : JSValue)
    (all : gmap string JSValue) :
  Y <> key -> assignProperty key v all !! Y = all !! Y.
Proof.
  intros HY. unfold assignProperty.
  destruct (String.eqb key "__proto__"); [destruct (all !! key) |];
    try reflexivity; apply lookup_insert_ne; congruence.
Qed.

(** C1 does not hold of the code at the identifier [__proto__], which the
    resolver returns for the location [watch?v=__proto__]: [persist] under it,
    with two bookmarks in the list, stores no entry, and [load] of it
    afterwards leaves the empty list. *)
Theorem persist_then_load_proto :
  let s' := persistSavedTimestampsForVideo (Some "__proto__") watchingProto in
  getVideoIdFromUrl sampleParse "https://www.youtube.com/watch?v=__proto__"
    = Some "__proto__"
  /\ savedTimestamps watchingProto = twoBookmarks
  /\ pendingErrors (store watchingProto) = []
  /\ savedTimestamps (loadSavedTimestampsForVideo (Some "__proto__") s') = []
  /\ savedTimestamps (loadSavedTimestampsForVideo (Some "__proto__") s')
     <> savedTimestamps watchingProto.
Proof.
  cbv zeta. split; [reflexivity |]. split; [reflexivity |].
  split; [reflexivity |]. split; [reflexivity | discriminate].
Qed.

(** C2 does not hold of the code at the identifier [__proto__]: [persist]
    under it, with two bookmarks in the list, writes the mapping back as it
    read it, and the storage has no entry for the identifier afterwards. *)
Theorem persist_frame_proto :
  let M := default ∅ (timestamps (store watchingProto)) in
  let s' := persistSavedTimestampsForVideo (Some "__proto__") watchingProto in
  savedTimestamps watchingProto = twoBookmarks
  /\ calls s' = [CallGet; CallSet M]
  /\ timestamps (store s') = Some M
  /\ M !! "__proto__" = None
  /\ entryOf s' "__proto__" = None
  /\ entryOf s' "abc123" = M !! "abc123".
Proof.
  cbv zeta. split; [reflexivity |]. split; [reflexivity |].
  split; [vm_compute; reflexivity |]. split; [reflexivity |].
  split; reflexivity.
Qed.

(** C7: [load] is total over corrupted storage. For every persisted mapping
    and every identifier whose entry is absent or is not a sequence, [load]
    leaves the empty list, whether or not the storage call succeeds; and
    whenever [load] leaves a list that is not empty, that list is the entry
    of the identifier, which is a sequence. (A sequence stored under a
    non-empty identifier is installed when the storage answers.) *)
Theorem load_total (s : State) (X : string) :
  let entry := default ∅ (timestamps (store s)) !! X in
  let s' := loadSavedTimestampsForVideo (Some X) s in
  ((entry = None \/ exists v, entry = Some v /\ isArray v = false) ->
     savedTimestamps s' = [])
  /\ (forall items, savedTimestamps s' = items -> items <> [] ->
        entry = Some (JArr items))
  /\ (forall items, entry = Some (JArr items) -> X <> "" ->
        pendingErrors (store s) = [] -> savedTimestamps s' = items).
Proof.
  intros entry s'. subst entry s'.
  assert (Hinstall : forall items,
            default ∅ (timestamps (store s)) !! X = Some (JArr items) ->
            X <> "" -> pendingErrors (store s) = [] ->
            savedTimestamps (loadSavedTimestampsForVideo (Some X) s) = items).
  { intros items He HX Hok. rewrite load_reliable by assumption.
    simpl. rewrite He. reflexivity. }
  destruct (load_savedTimestamps (Some X) s)
    as [Hnil | (X' & items & [= <-] & _ & Hentry & Hitems)].
  - split; [intros _; exact Hnil |]. split; [| exact Hinstall].
    intros items Hi Hne. congruence.
  - split; [| split; [| exact Hinstall]].
    + rewrite Hentry. intros [Habs | (v & [= <-] & Hv)]; discriminate.
    + intros items' Hi _. congruence.
Qed.

Lemma load_total_witness :
  savedTimestamps (loadSavedTimestampsForVideo (Some "broken") idle) = []
  /\ default ∅ (timestamps (store watching)) !! "abc123" = Some (JArr twoBookmarks).
Proof.
  split.
  - apply (proj1 (load_total idle "broken")).
    right. exists (JStr "oops"). split; reflexivity.
  - apply (proj1 (proj2 (load_total watching "abc123")) twoBookmarks);
      [reflexivity | discriminate].
Defined.

(** ** Rendering leaves the store alone *)

Lemma createContainerIfNeeded_savedTimestamps (s : State) :
  savedTimestamps (createContainerIfNeeded s) = savedTimestamps s.
Proof. ui_cases. Qed.

Lemma renderTimestampList_savedTimestamps (s : State) :
  savedTimestamps (renderTimestampList s) = savedTimestamps s.
Proof. ui_cases. Qed.

Lemma renderTimestampList_store (s : State) :
  store (renderTimestampList s) = store s.
Proof. ui_cases. Qed.

Lemma renderTimestampList_calls (s : State) :
  calls (renderTimestampList s) = calls s.
Proof. ui_cases. Qed.

Lemma renderTimestampList_videoId (s : State) :
  videoId (renderTimestampList s) = videoId s.
Proof. ui_cases. Qed.

Lemma persist_savedTimestamps (id : option string) (s : State) :
  savedTimestamps (persistSavedTimestampsForVideo id s) = savedTimestamps s.
Proof.
  unfold persistSavedTimestampsForVideo.
  destruct (storageGet (store s)) as [[all|] st]; [| reflexivity].
  cbv zeta. destruct (storageSet _ st). reflexivity.
Qed.

Lemma persist_videoId (id : option string) (s : State) :
  videoId (persistSavedTimestampsForVideo id s) = videoId s.
Proof.
  unfold persistSavedTimestampsForVideo.
  destruct (storageGet (store s)) as [[all|] st]; [| reflexivity].
  cbv zeta. destruct (storageSet _ st). reflexivity.
Qed.

Lemma persist_container (id : option string) (s : State) :
  container (persistSavedTimestampsForVideo id s) = container s.
Proof.
  unfold persistSavedTimestampsForVideo.
  destruct (storageGet (store s)) as [[all|] st]; [| reflexivity].
  cbv zeta. destruct (storageSet _ st). reflexivity.
Qed.

(** A list mutation followed by [persist] and a redraw: what it leaves in
    the list and in the storage. *)
Lemma mutate_persist_render (l : list JSValue) (s : State) :
  let s1 := setSavedTimestamps l s in
  let s' := renderTimestampList (persistSavedTimestampsForVideo (videoId s1) s1) in
  savedTimestamps s' = l
  /\ videoId s' = videoId s
  /\ store s' = store (persistSavedTimestampsForVideo (videoId s) s1)
  /\ calls s' = calls (persistSavedTimestampsForVideo (videoId s) s1).
Proof.
  intros s1 s'. subst s' s1.
  rewrite renderTimestampList_savedTimestamps, persist_savedTimestamps,
    renderTimestampList_videoId, persist_videoId,
    renderTimestampList_store, renderTimestampList_calls.
  repeat split; reflexivity.
Qed.

(** The entry that [persist] leaves under its key, and the other entries. *)
Lemma persist_entry (id : option string) (s : State) :
  pendingErrors (store s) = [] ->
  propertyKey id <> "__proto__" ->
  entryOf (persistSavedTimestampsForVideo id s) (propertyKey id)
  = Some (jsonCopy (JArr (savedTimestamps s))).
Proof.
  intros Hok Hkey. rewrite (persist_reliable _ _ Hok). cbv zeta.
  unfold entryOf. simpl.
  rewrite jsonCopyAll_lookup, assignProperty_insert by exact Hkey.
  rewrite lookup_insert_eq. reflexivity.
Qed.

(** ** Operations on the bookmark list *)

(** C9: while the active identifier is [null], [saveTimestamp] is a no-op
    for every time and note: nothing is appended to the list and no storage
    call is made; the state is left as it was. *)
Theorem saveTimestamp_without_video (time : Z) (note : string) (s : State) :
  videoId s = None ->
  let s' := saveTimestamp time note s in
  savedTimestamps s' = savedTimestamps s
  /\ calls s' = calls s
  /\ store s' = store s
  /\ s' = s.
Proof.
  intros Hid s'. subst s'. unfold saveTimestamp. rewrite Hid. simpl.
  repeat split; reflexivity.
Qed.

Lemma saveTimestamp_without_video_witness :
  saveTimestamp 42 "a note" idle = idle.
Proof.
  apply (saveTimestamp_without_video 42 "a note" idle). reflexivity.
Defined.

(** With an active identifier the bookmark goes to the end of the list. *)
Lemma saveTimestamp_appends (time : Z) (note : string) (s : State) :
  truthy (videoId s) = true ->
  savedTimestamps (saveTimestamp time note s)
  = (savedTimestamps s ++ [bookmark time note])%list.
Proof.
  intros Hid. unfold saveTimestamp. rewrite Hid. simpl.
  apply (mutate_persist_render _ s).
Qed.

(** Comparisons of the guard of [deleteTimestamp] on finite Numbers. *)
Lemma ltb_Finite (x y : Q) :
  JsMath.ltb (Finite x) (Finite y) = true <-> (x < y)%Q.
Proof.
  unfold JsMath.ltb. simpl. rewrite andb_true_iff, negb_true_iff.
  rewrite Qle_bool_iff, <- not_true_iff_false, Qle_bool_iff. split.
  - intros [_ H]. apply Qnot_le_lt. exact H.
  - intros H. split; [apply Qlt_le_weak; exact H | apply Qlt_not_le; exact H].
Qed.

Lemma leb_Finite (x y : Q) :
  JsMath.leb (Finite x) (Finite y) = true <-> (x <= y)%Q.
Proof. simpl. apply Qle_bool_iff. Qed.

(** Outside the list, [deleteTimestamp] leaves the state alone. *)
Lemma deleteTimestamp_outside (q : Q) (s : State) :
  (q < 0 \/ inject_Z (Z.of_nat (length (savedTimestamps s))) <= q)%Q ->
  deleteTimestamp (Finite q) s = s.
Proof.
  intros Hout. unfold deleteTimestamp. cbv zeta.
  replace (JsMath.ltb (Finite q) (JsMath.ofZ 0)
           || JsMath.leb (JsMath.ofZ (Z.of_nat (length (savedTimestamps s))))
                (Finite q))
    with true; [reflexivity |].
  symmetry. apply orb_true_iff. unfold JsMath.ofZ.
  rewrite ltb_Finite, leb_Finite. exact Hout.
Qed.

(** Inside the list, it removes the item at the integer part of the index
    and persists what is left. *)
Lemma deleteTimestamp_inside (q : Q) (s : State) :
  (0 <= q)%Q ->
  (q < inject_Z (Z.of_nat (length (savedTimestamps s))))%Q ->
  exists before b after,
    savedTimestamps s = (before ++ b :: after)%list
    /\ Z.of_nat (length before) = Qfloor q
    /\ deleteTimestamp (Finite q) s
       = renderTimestampList
           (persistSavedTimestampsForVideo (videoId s)
              (setSavedTimestamps (before ++ after) s)).
Proof.
  intros H0 Hn.
  assert (Hf0 : 0 <= Qfloor q).
  { change 0 with (Qfloor (inject_Z 0)). apply Qfloor_resp_le. exact H0. }
  assert (Hfn : Qfloor q < Z.of_nat (length (savedTimestamps s))).
  { rewrite Zlt_Qlt. eapply Qle_lt_trans; [apply Qfloor_le | exact Hn]. }
  destruct (lookup_lt_is_Some_2 (savedTimestamps s) (Z.to_nat (Qfloor q)))
    as [b Hb]; [lia |].
  pose proof (take_drop_middle _ _ _ Hb) as Hsplit.
  pose proof (length_take_le (savedTimestamps s) (Z.to_nat (Qfloor q))) as Hlen.
  exists (take (Z.to_nat (Qfloor q)) (savedTimestamps s)), b,
         (drop (S (Z.to_nat (Qfloor q))) (savedTimestamps s)).
  split; [symmetry; exact Hsplit |].
  split; [rewrite Hlen by lia; lia |].
  unfold deleteTimestamp. cbv zeta.
  replace (JsMath.ltb (Finite q) (JsMath.ofZ 0)
           || JsMath.leb (JsMath.ofZ (Z.of_nat (length (savedTimestamps s))))
                (Finite q))
    with false.
  - do 2 f_equal. f_equal. unfold JsArray.splice1, JsArray.spliceStart, JsMath.truncate.
    replace (Qle_bool 0 q) with true by (symmetry; apply Qle_bool_iff; exact H0).
    replace (Qfloor q <? 0) with false by (symmetry; apply Z.ltb_ge; exact Hf0).
    rewrite Z.min_l by lia.
    rewrite <- Hsplit at 1.
    replace (Z.to_nat (Qfloor q))
      with (length (take (Z.to_nat (Qfloor q)) (savedTimestamps s))) at 1
      by (rewrite Hlen; lia).
    apply delete_middle.
  - symmetry. apply orb_false_iff. unfold JsMath.ofZ.
    rewrite <- !not_true_iff_false, ltb_Finite, leb_Finite. split.
    + apply Qle_not_lt. exact H0.
    + apply Qlt_not_le. exact Hn.
Qed.


(** ** The note input *)

Lemma JsArray_get_middle (before after : list JSValue) (item : JSValue) :
  JsArray.get (before ++ item :: after) (Z.of_nat (length before)) = item.
Proof.
  unfold JsArray.get.
  replace (Z.of_nat (length before) <? 0) with false
    by (symmetry; apply Z.ltb_ge; lia).
  rewrite Nat2Z.id, list_lookup_middle by reflexivity. reflexivity.
Qed.



(** At [idx = length] the handler, which does not look at the length, grows
    the list by an object that has a note and no time. *)
Lemma noteInputFocusOut_at_length (inputValue : string) (s : State) :
  Z.of_nat (length (savedTimestamps s)) < 4294967295 ->
  savedTimestamps
    (noteInputFocusOut (Z.of_nat (length (savedTimestamps s))) inputValue s)
  = (savedTimestamps s ++ [JObj [("note", JStr (JsString.trim inputValue))]])%list.
Proof.
  intros Hlen. unfold noteInputFocusOut. cbv zeta.
  rewrite renderTimestampList_savedTimestamps, persist_savedTimestamps. simpl.
  unfold JsArray.set, JsArray.get.
  replace (Z.of_nat (length (savedTimestamps s)) <? 0) with false
    by (symmetry; apply Z.ltb_ge; lia).
  rewrite Z.ltb_irrefl.
  replace (Z.of_nat (length (savedTimestamps s)) <? 4294967295) with true
    by (symmetry; apply Z.ltb_lt; lia).
  rewrite Nat2Z.id, Nat.sub_diag.
  rewrite (lookup_ge_None_2 (savedTimestamps s)) by lia.
  reflexivity.
Qed.

(** C4 does not hold of the handler: with two bookmarks in the list, a
    [focusout] from a note input whose row carries index 2 is outside
    [0, length), yet the list grows by [{ note: "late" }] and the grown list
    is written to the storage. *)
Theorem noteInputFocusOut_unchecked_index :
  let s' := noteInputFocusOut 2 "  late " watching in
  savedTimestamps watching = twoBookmarks
  /\ savedTimestamps s' = (twoBookmarks ++ [JObj [("note", JStr "late")]])%list
  /\ savedTimestamps s' <> savedTimestamps watching
  /\ default ∅ (timestamps (store s')) !! "abc123"
     = Some (JArr (twoBookmarks ++ [JObj [("note", JStr "late")]])).
Proof.
  cbv zeta. split; [reflexivity |]. split; [reflexivity |].
  split; [discriminate | reflexivity].
Qed.

(** ** Resynchronization *)

Lemma getVideoIdFromUrl_falsy (parseURL : string -> option URL) (u : string) :
  truthy (getVideoIdFromUrl parseURL u) = false ->
  getVideoIdFromUrl parseURL u = None.
Proof.
  intros Hf. apply truthy_false in Hf. destruct Hf as [Hf | Hf]; [exact Hf |].
  rewrite getVideoIdFromUrl_firstMatch in Hf.
  destruct (parseURL u) as [url|]; [| discriminate]. exfalso.
  refine (firstMatch_nonempty _ _ _ Hf eq_refl).
  repeat constructor; auto with resolver.
Qed.

(** C3: if the newly resolved identifier equals the current one,
    [onUrlChange] is a no-op: the whole state (list, overlay, storage, storage
    calls) is unchanged. If the newly resolved identifier is [null], then,
    from every state that satisfies the module invariant (in particular from
    every state with an active identifier), the list is empty and the overlay
    container is gone afterwards, and no storage call was made. *)
Theorem onUrlChange_resync (parseURL : string -> option URL)
    (href : string) (s : State) :
  let newId := getVideoIdFromUrl parseURL href in
  let s' := onUrlChange parseURL href s in
  (newId = videoId s -> s' = s)
  /\ (newId = None -> Consistent s ->
      videoId s' = None
      /\ savedTimestamps s' = []
      /\ container s' = None
      /\ store s' = store s
      /\ calls s' = calls s).
Proof.
  intros newId s'. subst newId s'. unfold onUrlChange. cbv zeta. split.
  - intros Heq. destruct (decide _) as [_ | Hne]; [reflexivity | contradiction].
  - intros Hnull Hinv. rewrite Hnull.
    destruct (decide (None = videoId s)) as [Heq | Hne].
    + destruct (Hinv (eq_sym Heq)) as [Hl Hc]. auto.
    + simpl. unfold destroyContainer. simpl.
      destruct (container s) eqn:Hc; simpl; rewrite ?Hc; auto.
Qed.

Lemma onUrlChange_resync_witness :
  onUrlChange sampleParse "https://www.youtube.com/watch?v=abc123" watching = watching
  /\ savedTimestamps
       (onUrlChange sampleParse "https://www.youtube.com/feed/subscriptions" watching)
     = []
  /\ container
       (onUrlChange sampleParse "https://www.youtube.com/feed/subscriptions" watching)
     = None
  /\ store
       (onUrlChange sampleParse "https://www.youtube.com/feed/subscriptions" watching)
     = store watching.
Proof.
  split.
  - apply (proj1 (onUrlChange_resync sampleParse
                    "https://www.youtube.com/watch?v=abc123" watching)).
    reflexivity.
  - destruct (proj2 (onUrlChange_resync sampleParse
                       "https://www.youtube.com/feed/subscriptions" watching))
      as (_ & Hl & Hc & Hst & _); [reflexivity | discriminate |].
    split; [exact Hl |]. split; [exact Hc | exact Hst].
Defined.

(** ** CSV export *)

Example formatTime_0 : formatTime 0 = "00:00".
Proof. reflexivity. Qed.

Example formatTime_65 : formatTime 65 = "01:05".
Proof. reflexivity. Qed.

Example formatTime_3661 : formatTime 3661 = "01:01:01".
Proof. reflexivity. Qed.

Lemma csvAppend_bookmark (csv : string) (time : Z) (note : string) :
  csvAppend csv (bookmark time note) = Downloaded (csv +:+ csvRow time note).
Proof.
  unfold csvAppend, bookmark. simpl.
  destruct note as [|c note]; simpl; [| reflexivity].
  reflexivity.
Qed.

(** Over well-formed bookmarks the loop appends one row per bookmark, in
    list order. *)
Lemma csvForEach_bookmarks (bs : list (Z * string)) (csv : string) :
  csvForEach csv (bookmarks bs) = Downloaded (csv +:+ csvRows bs).
Proof.
  revert csv. induction bs as [|[time note] bs IH]; intros csv.
  - simpl. rewrite append_nil_r. reflexivity.
  - change (bookmarks ((time, note) :: bs))
      with (bookmark time note :: bookmarks bs).
    change (csvForEach csv (bookmark time note :: bookmarks bs))
      with (match csvAppend csv (bookmark time note) with
            | Downloaded csv' => csvForEach csv' (bookmarks bs)
            | r => r
            end).
    rewrite csvAppend_bookmark, IH. simpl csvRows.
    rewrite append_assoc. reflexivity.
Qed.

(** Doubling loses nothing: reading the field back gives the note. *)
Lemma undoubleQuotes_doubleQuotes (note : string) :
  undoubleQuotes (JsString.doubleQuotes note) = note.
Proof.
  induction note as [|c note IH]; [reflexivity |]. simpl.
  destruct (Ascii.eqb c JsString.dquote) eqn:Hc.
  - apply Ascii.eqb_eq in Hc. subst c. simpl. rewrite IH. reflexivity.
  - simpl. rewrite Hc, IH. reflexivity.
Qed.

(** C8, as stated, fails: the text exported for the two bookmarks has no
    space between the empty note's quotes and the line feed. *)
Lemma exportTimestampsAsCSV_not_spec_text :
  exportTimestampsAsCSV watching = Downloaded csvScenario
  /\ exportTimestampsAsCSV watching <> Downloaded csvScenario_spec.
Proof. split; [reflexivity | discriminate]. Qed.

(** C8, amended: for the in-memory list holding exactly the bookmarks
    [{time 5, note empty}] and [{time 130, note intro}] in that order, the
    exported text is the header line, then [5,"00:05",] followed by two
    double quotes and a line feed, then [130,"02:10","intro"] and a line
    feed. In general, for a non-empty list of bookmarks, the text is the
    header row followed by one row per bookmark in list order, and in a row
    every double quote of the note is doubled. *)
Theorem exportTimestampsAsCSV_text (s : State) :
  (savedTimestamps s = twoBookmarks ->
     exportTimestampsAsCSV s = Downloaded csvScenario)
  /\ (forall b bs,
        savedTimestamps s = bookmarks (b :: bs) ->
        exportTimestampsAsCSV s = Downloaded (csvHeader +:+ csvRows (b :: bs)))
  /\ (forall time note,
        csvRow time note
        = JsString.ofZ time +:+ "," +:+ JsString.str JsString.dquote
          +:+ formatTime time +:+ JsString.str JsString.dquote +:+ ","
          +:+ JsString.str JsString.dquote +:+ JsString.doubleQuotes note
          +:+ JsString.str JsString.dquote +:+ JsString.str JsString.newline
        /\ undoubleQuotes (JsString.doubleQuotes note) = note).
Proof.
  split; [| split].
  - unfold exportTimestampsAsCSV. intros ->. reflexivity.
  - intros [time note] bs Hs. unfold exportTimestampsAsCSV. rewrite Hs.
    change (bookmarks ((time, note) :: bs))
      with (bookmark time note :: bookmarks bs).
    cbv iota.
    change (bookmark time note :: bookmarks bs)
      with (bookmarks ((time, note) :: bs)).
    apply csvForEach_bookmarks.
  - intros time note. split; [reflexivity | apply undoubleQuotes_doubleQuotes].
Qed.

Lemma exportTimestampsAsCSV_text_witness :
  exportTimestampsAsCSV watching = Downloaded csvScenario
  /\ exportTimestampsAsCSV watching
     = Downloaded (csvHeader +:+ csvRows [(5, ""); (130, "intro")]).
Proof.
  split.
  - apply (proj1 (exportTimestampsAsCSV_text watching)). reflexivity.
  - apply (proj1 (proj2 (exportTimestampsAsCSV_text watching))
             (5, "") [(130, "intro")]).
    reflexivity.
Defined.

(** * Further properties *)

(** ** The store after a handler *)

Lemma getVideoIdFromUrl_Some_nonempty (parseURL : string -> option URL)
    (u id : string) :
  getVideoIdFromUrl parseURL u = Some id -> truthy (Some id) = true.
Proof.
  intros Hid. destruct (truthy (Some id)) eqn:Ht; [reflexivity |].
  rewrite <- Hid in Ht. apply getVideoIdFromUrl_falsy in Ht. congruence.
Qed.

Lemma createContainerIfNeeded_store (s : State) :
  store (createContainerIfNeeded s) = store s.
Proof. ui_cases. Qed.

Lemma createContainerIfNeeded_calls (s : State) :
  calls (createContainerIfNeeded s) = calls s.
Proof. ui_cases. Qed.

Lemma createContainerIfNeeded_videoId (s : State) :
  videoId (createContainerIfNeeded s) = videoId s.
Proof. ui_cases. Qed.

(** What [load] does for any identifier when the storage answers. *)
Lemma load_answered (id : option string) (s : State) :
  pendingErrors (store s) = [] ->
  loadSavedTimestampsForVideo id s =
  if truthy id
  then setSavedTimestamps (storedList s (propertyKey id))
         (setStore (store s) [CallGet] s)
  else setSavedTimestamps [] s.
Proof.
  intros Hok. unfold loadSavedTimestampsForVideo, storedList, entryOf.
  destruct (truthy id); simpl; [| reflexivity].
  rewrite (storageGet_reliable _ Hok). reflexivity.
Qed.

(** The stored mapping after [persist], whatever the storage does: the one
    before, or a copy of the one before with the property of [id] assigned. *)
Lemma persist_timestamps (id : option string) (s : State) :
  let all := default ∅ (timestamps (store s)) in
  timestamps (store (persistSavedTimestampsForVideo id s)) = timestamps (store s)
  \/ timestamps (store (persistSavedTimestampsForVideo id s))
     = Some (jsonCopyAll
               (assignProperty (propertyKey id) (JArr (savedTimestamps s)) all)).
Proof.
  unfold persistSavedTimestampsForVideo, storageGet, storageSet.
  destruct (pendingErrors (store s)) as [|[|] [|[|] later]] eqn:He; simpl;
    rewrite ?He; simpl; auto.
Qed.

Lemma persist_entry_other (id : option string) (s : State) (Y : string) :
  JsonStore s ->
  Y <> propertyKey id ->
  entryOf (persistSavedTimestampsForVideo id s) Y = entryOf s Y.
Proof.
  intros Hjson HY. unfold entryOf.
  destruct (persist_timestamps id s) as [-> | ->]; [reflexivity |].
  simpl. rewrite jsonCopyAll_lookup, assignProperty_other by exact HY.
  destruct (default ∅ (timestamps (store s)) !! Y) as [v|] eqn:Hv;
    [| reflexivity].
  destruct (Hjson Y v Hv) as [Hu Hc]. rewrite Hc. destruct v; congruence.
Qed.

Lemma renderTimestampList_entryOf (s : State) (Y : string) :
  entryOf (renderTimestampList s) Y = entryOf s Y.
Proof. unfold entryOf. rewrite renderTimestampList_store. reflexivity. Qed.

(** A list mutation followed by [persist] and a redraw, with a storage that
    answers and under a key other than [__proto__]: the entry of the key is
    the copy of the list. *)
Lemma mutate_entry (l : list JSValue) (s : State) :
  pendingErrors (store s) = [] ->
  propertyKey (videoId s) <> "__proto__" ->
  let s1 := setSavedTimestamps l s in
  let s' := renderTimestampList (persistSavedTimestampsForVideo (videoId s1) s1) in
  entryOf s' (propertyKey (videoId s)) = Some (jsonCopy (JArr l))
  /\ pendingErrors (store s') = [].
Proof.
  intros Hok Hkey s1 s'. subst s' s1. split.
  - rewrite renderTimestampList_entryOf.
    apply (persist_entry (videoId s) (setSavedTimestamps l s) Hok Hkey).
  - rewrite renderTimestampList_store.
    rewrite persist_reliable by exact Hok. reflexivity.
Qed.

Lemma mutate_Synced (l : list JSValue) (s : State) :
  pendingErrors (store s) = [] ->
  propertyKey (videoId s) <> "__proto__" ->
  Storable l ->
  let s1 := setSavedTimestamps l s in
  Synced (renderTimestampList (persistSavedTimestampsForVideo (videoId s1) s1)).
Proof.
  intros Hok Hkey Hl s1. subst s1.
  destruct (mutate_entry l s Hok Hkey) as [He _].
  destruct (mutate_persist_render l s) as (Hlist & Hid & _).
  cbv zeta in He, Hlist, Hid.
  intros X HX. rewrite Hlist. unfold storedList.
  rewrite Hid in HX. rewrite HX in He. simpl propertyKey in He.
  rewrite He, Hl. reflexivity.
Qed.

(** [onUrlChange] with a storage that answers: the store stays as it is. *)
Lemma onUrlChange_store (parseURL : string -> option URL) (href : string)
    (s : State) :
  pendingErrors (store s) = [] ->
  store (onUrlChange parseURL href s) = store s.
Proof.
  intros Hok. unfold onUrlChange. cbv zeta.
  destruct (decide _) as [_ | _]; [reflexivity |]. simpl.
  destruct (truthy (getVideoIdFromUrl parseURL href)) eqn:Ht; simpl.
  - rewrite renderTimestampList_store, createContainerIfNeeded_store.
    rewrite load_answered by exact Hok. rewrite Ht. reflexivity.
  - unfold destroyContainer. simpl. destruct (container s); reflexivity.
Qed.

(** X1: no handler leaves memory and storage out of step.  From a state
    whose list is the stored one, with a storage that answers and an active
    identifier other than [__proto__], the handler of any one event (a
    navigation, a save at a position in whole seconds, a delete or a note
    commit at an integer row index, a clear), run on its own, leaves the
    in-memory list equal to the list stored under the identifier that is
    active afterwards, provided the list it leaves is JSON data (it has no
    hole). *)
Theorem handle_keeps_Synced (parseURL : string -> option URL) (e : Event)
    (s : State) :
  pendingErrors (store s) = [] ->
  Synced s ->
  propertyKey (videoId s) <> "__proto__" ->
  Storable (savedTimestamps (handle parseURL e s)) ->
  Synced (handle parseURL e s).
Proof.
  intros Hok Hs Hkey.
  assert (Hmut : forall l,
            let s1 := setSavedTimestamps l s in
            let s' := renderTimestampList
                        (persistSavedTimestampsForVideo (videoId s1) s1) in
            Storable (savedTimestamps s') -> Synced s').
  { intros l s1 s' Hl. subst s'.
    apply (mutate_Synced l s Hok Hkey).
    rewrite <- (proj1 (mutate_persist_render l s)). exact Hl. }
  destruct e as [href | time | index | idx value | confirmed]; simpl.
  - intros _. unfold onUrlChange. cbv zeta.
    destruct (decide _) as [_ | _]; [exact Hs |]. simpl.
    destruct (truthy (getVideoIdFromUrl parseURL href)) eqn:Ht; simpl.
    + intros X HX.
      rewrite renderTimestampList_videoId, createContainerIfNeeded_videoId in HX.
      rewrite renderTimestampList_savedTimestamps,
        createContainerIfNeeded_savedTimestamps.
      unfold storedList, entryOf.
      rewrite renderTimestampList_store, createContainerIfNeeded_store.
      rewrite load_answered in HX |- * by exact Hok.
      rewrite Ht in HX |- *. simpl in HX |- *.
      rewrite HX. reflexivity.
    + apply getVideoIdFromUrl_falsy in Ht. intros X HX. exfalso.
      unfold destroyContainer in HX. simpl in HX.
      destruct (container s); simpl in HX; congruence.
  - unfold saveTimestamp. destruct (truthy (videoId s)); simpl;
      [apply Hmut | auto].
  - unfold deleteTimestamp. cbv zeta. destruct (_ || _); simpl;
      [auto | apply Hmut].
  - unfold noteInputFocusOut. cbv zeta. apply Hmut.
  - unfold clearAllClick. destruct confirmed; simpl;
      [apply Hmut | auto].
Qed.

Lemma Synced_watching : Synced watching.
Proof. intros X [= <-]. reflexivity. Qed.

Lemma handle_keeps_Synced_witness :
  Synced (handle sampleParse (NoteFocusOut 1 " x ") watching)
  /\ Synced (handle sampleParse (DeleteClicked 0) watching)
  /\ Synced (handle sampleParse (UrlChanged "https://youtu.be/embed/xyz") watching).
Proof.
  split; [| split];
    apply (handle_keeps_Synced sampleParse _ watching);
    first [reflexivity | exact Synced_watching | discriminate].
Defined.

(** [onUrlChange] never changes the stored mapping, and reads it at most
    once. *)
Lemma onUrlChange_reads_only (parseURL : string -> option URL) (href : string)
    (s : State) :
  let s' := onUrlChange parseURL href s in
  timestamps (store s') = timestamps (store s)
  /\ (calls s' = calls s \/ calls s' = (calls s ++ [CallGet])%list).
Proof.
  cbv zeta. unfold onUrlChange. cbv zeta.
  destruct (decide _) as [_ | _]; [auto |]. simpl.
  destruct (truthy (getVideoIdFromUrl parseURL href)) eqn:Ht; simpl.
  - rewrite renderTimestampList_store, renderTimestampList_calls,
      createContainerIfNeeded_store, createContainerIfNeeded_calls.
    unfold loadSavedTimestampsForVideo. simpl. rewrite Ht. simpl.
    unfold storageGet.
    destruct (pendingErrors (store s)) as [|[|] later]; simpl; auto.
  - unfold destroyContainer. simpl. destruct (container s); simpl; auto.
Qed.

(** X3: a navigation never writes to the storage: after [onUrlChange] the
    persisted mapping is the one before, whatever the location and whether or
    not the storage answers, and the only storage call it may make is one
    read. *)
Theorem onUrlChange_never_writes (parseURL : string -> option URL)
    (href : string) (s : State) :
  let s' := onUrlChange parseURL href s in
  timestamps (store s') = timestamps (store s)
  /\ (forall X, entryOf s' X = entryOf s X)
  /\ (calls s' = calls s \/ calls s' = (calls s ++ [CallGet])%list).
Proof.
  cbv zeta.
  destruct (onUrlChange_reads_only parseURL href s) as [Hst Hcalls].
  split; [exact Hst |]. split; [| exact Hcalls].
  intros X. unfold entryOf. rewrite Hst. reflexivity.
Qed.

(** X2: a handler touches no stored entry but the one under the key it
    persists with, which is the active identifier, or the string [null]
    when no identifier is active: whatever the event (a navigation, a save
    at a position in whole seconds, a delete or a note commit at an integer
    row index, a clear) and whether or not the storage answers, every other
    entry of a persisted mapping of JSON data is afterwards what it was. *)
Theorem handle_frame (parseURL : string -> option URL) (e : Event)
    (s : State) (Y : string) :
  JsonStore s ->
  Y <> propertyKey (videoId s) ->
  entryOf (handle parseURL e s) Y = entryOf s Y.
Proof.
  intros Hjson HY.
  assert (Hmut : forall l,
            let s1 := setSavedTimestamps l s in
            entryOf (renderTimestampList
                       (persistSavedTimestampsForVideo (videoId s1) s1)) Y
            = entryOf s Y).
  { intros l s1. rewrite renderTimestampList_entryOf.
    rewrite persist_entry_other by assumption. reflexivity. }
  destruct e as [href | time | index | idx value | confirmed]; simpl.
  - unfold entryOf.
    rewrite (proj1 (onUrlChange_reads_only parseURL href s)). reflexivity.
  - unfold saveTimestamp. destruct (truthy (videoId s)); simpl;
      [apply Hmut | reflexivity].
  - unfold deleteTimestamp. cbv zeta. destruct (_ || _); simpl;
      [reflexivity | apply Hmut].
  - unfold noteInputFocusOut. cbv zeta. apply Hmut.
  - unfold clearAllClick. destruct confirmed; simpl;
      [apply Hmut | reflexivity].
Qed.

(** The sample mapping is JSON data. *)
Lemma JsonStore_watching (s : State) :
  timestamps (store s) = timestamps (store watching) -> JsonStore s.
Proof.
  intros Hst X v. unfold entryOf. rewrite Hst. simpl.
  unfold otherEntries. rewrite !lookup_insert_Some, lookup_singleton_Some.
  intros [[_ <-] | [_ [[_ <-] | [_ [_ <-]]]]];
    (split; [discriminate | reflexivity]).
Qed.

Lemma handle_frame_witness :
  entryOf (handle sampleParse (DeleteClicked 0) watching) "other"
  = Some (JArr [bookmark 1 "x"])
  /\ entryOf (handle sampleParse (ClearClicked true) readRejected) "broken"
     = Some (JStr "oops")
  /\ entryOf (handle sampleParse (ClearClicked true) idle) "other"
     = Some (JArr [bookmark 1 "x"]).
Proof.
  split; [| split].
  - rewrite (handle_frame sampleParse (DeleteClicked 0) watching "other"
               (JsonStore_watching watching eq_refl))
      by discriminate.
    reflexivity.
  - rewrite (handle_frame sampleParse (ClearClicked true) readRejected "broken"
               (JsonStore_watching readRejected eq_refl))
      by discriminate.
    reflexivity.
  - assert (Hjson : JsonStore idle).
    { intros X v. unfold entryOf. simpl.
      unfold otherEntries. rewrite !lookup_insert_Some, lookup_singleton_Some.
      intros [[_ <-] | [_ [_ <-]]]; (split; [discriminate | reflexivity]). }
    rewrite (handle_frame sampleParse (ClearClicked true) idle "other" Hjson)
      by discriminate.
    reflexivity.
Defined.

(** ** The overlay after a handler *)


Lemma renderTimestampList_Rendered (s : State) : Rendered (renderTimestampList s).
Proof.
  unfold Rendered, renderTimestampList, createContainerIfNeeded, setContainer.
  intros p. repeat case_match; simpl in *; intros Hp;
    try congruence; simplify_eq; reflexivity.
Qed.



(** ** The storage cycle away from [__proto__] *)

(** X26: round trip. For every identifier [X] that is neither empty nor
    [__proto__] and every list [L] of JSON data (no hole), [persist(X)]
    with the list [L] followed by [load(X)], against a storage whose calls
    succeed, yields [L] again, whatever the storage held before. *)
Theorem persist_then_load (X : string) (L : list JSValue) (s : State) :
  X <> "" ->
  X <> "__proto__" ->
  Storable L ->
  pendingErrors (store s) = [] ->
  savedTimestamps s = L ->
  savedTimestamps
    (loadSavedTimestampsForVideo (Some X)
       (persistSavedTimestampsForVideo (Some X) s)) = L.
Proof.
  intros HX Hproto HL Hok Hs.
  rewrite (persist_reliable _ _ Hok). cbv zeta.
  rewrite load_reliable by (try exact HX; reflexivity).
  simpl. rewrite jsonCopyAll_lookup, assignProperty_insert by exact Hproto.
  rewrite lookup_insert_eq, Hs, HL. reflexivity.
Qed.

Lemma persist_then_load_witness :
  savedTimestamps
    (loadSavedTimestampsForVideo (Some "abc123")
       (persistSavedTimestampsForVideo (Some "abc123") watching)) = twoBookmarks
  /\ savedTimestamps
       (loadSavedTimestampsForVideo (Some "fresh")
          (persistSavedTimestampsForVideo (Some "fresh") idle)) = [].
Proof.
  split.
  - apply (persist_then_load "abc123" twoBookmarks watching);
      [discriminate | discriminate | reflexivity | reflexivity | reflexivity].
  - apply (persist_then_load "fresh" [] idle);
      [discriminate | discriminate | reflexivity | reflexivity | reflexivity].
Defined.

(** X27: what [persist] writes. For every persisted mapping [M] of JSON
    data, every identifier [X] other than [__proto__] and every list [L] of
    JSON data, against a storage whose calls succeed, [persist(X)] reads
    once and writes once, handing over [M] with the entry of [X] set to [L];
    in the mapping stored afterwards the entry of [X] is [L] and the entry
    of every other identifier is the one of [M]; the in-memory list is left
    as it was. *)
Theorem persist_frame (M : gmap string JSValue) (X : string)
    (L : list JSValue) (s : State) :
  X <> "__proto__" ->
  Storable L ->
  JsonStore s ->
  default ∅ (timestamps (store s)) = M ->
  pendingErrors (store s) = [] ->
  savedTimestamps s = L ->
  let s' := persistSavedTimestampsForVideo (Some X) s in
  exists M',
    timestamps (store s') = Some M'
    /\ calls s' = (calls s ++ [CallGet; CallSet (<[X := JArr L]> M)])%list
    /\ M' !! X = Some (JArr L)
    /\ (forall Y, Y <> X -> M' !! Y = M !! Y)
    /\ savedTimestamps s' = L.
Proof.
  intros Hproto HL Hjson HM Hok Hs s'. subst s'.
  rewrite (persist_reliable _ _ Hok). cbv zeta. rewrite HM, Hs. simpl.
  rewrite assignProperty_insert by exact Hproto.
  eexists. split; [reflexivity |]. split; [reflexivity |].
  split; [| split; [| exact Hs]].
  - rewrite jsonCopyAll_lookup, lookup_insert_eq, HL. reflexivity.
  - intros Y HY. rewrite jsonCopyAll_lookup, lookup_insert_ne by congruence.
    destruct (M !! Y) as [v|] eqn:Hv; [| reflexivity].
    destruct (Hjson Y v) as [Hu Hc];
      [unfold entryOf; rewrite HM; exact Hv |].
    rewrite Hc. destruct v; congruence.
Qed.

Lemma persist_frame_witness :
  exists M',
    timestamps (store (persistSavedTimestampsForVideo (Some "abc123")
                         (setSavedTimestamps [bookmark 9 "new"] watching)))
      = Some M'
    /\ M' !! "other" = Some (JArr [bookmark 1 "x"])
    /\ M' !! "abc123" = Some (JArr [bookmark 9 "new"]).
Proof.
  destruct (persist_frame (<["abc123" := JArr twoBookmarks]> otherEntries)
              "abc123" [bookmark 9 "new"]
              (setSavedTimestamps [bookmark 9 "new"] watching))
    as (M' & Hst & _ & HX & Hframe & _);
    [discriminate | reflexivity | apply JsonStore_watching; reflexivity
    | reflexivity | reflexivity | reflexivity |].
  exists M'. split; [exact Hst |]. split; [| exact HX].
  rewrite Hframe by discriminate. reflexivity.
Defined.

(** ** Switching between videos *)

(** X6: leaving a video and coming back restores its list: from a state whose
    list is the stored one for identifier [A], with a storage that answers,
    a navigation to any location followed by a navigation to a location that
    resolves to [A] again leaves [A] active with the list it had. *)
Theorem onUrlChange_away_and_back (parseURL : string -> option URL)
    (href1 href2 A : string) (s : State) :
  videoId s = Some A ->
  pendingErrors (store s) = [] ->
  Synced s ->
  getVideoIdFromUrl parseURL href2 = Some A ->
  let s' := onUrlChange parseURL href2 (onUrlChange parseURL href1 s) in
  videoId s' = Some A /\ savedTimestamps s' = savedTimestamps s.
Proof.
  intros HA Hok Hs Hback. cbv zeta.
  pose proof (onUrlChange_store parseURL href1 s Hok) as Hst1.
  pose proof (getVideoIdFromUrl_Some_nonempty _ _ _ Hback) as HtA.
  remember (onUrlChange parseURL href1 s) as s1 eqn:Hs1.
  assert (Hcase : s1 = s \/ videoId s1 <> Some A).
  { subst s1. unfold onUrlChange. cbv zeta.
    destruct (decide _) as [_ | Hne]; [left; reflexivity | right].
    rewrite HA in Hne. simpl.
    destruct (truthy (getVideoIdFromUrl parseURL href1)) eqn:Ht; simpl.
    - rewrite renderTimestampList_videoId, createContainerIfNeeded_videoId.
      unfold loadSavedTimestampsForVideo. simpl. rewrite Ht. simpl.
      destruct (storageGet (store s)) as [[all|] st]; simpl; congruence.
    - unfold destroyContainer. simpl.
      destruct (container s); simpl; congruence. }
  unfold onUrlChange. cbv zeta. rewrite Hback.
  destruct Hcase as [-> | Hne].
  - destruct (decide _) as [_ | Hne]; [auto | congruence].
  - destruct (decide _) as [Heq | _]; [congruence |].
    change (videoId (setVideoId (Some A) s1)) with (Some A).
    rewrite HtA. cbn [negb].
    rewrite renderTimestampList_videoId, createContainerIfNeeded_videoId,
      renderTimestampList_savedTimestamps,
      createContainerIfNeeded_savedTimestamps.
    rewrite load_answered by (simpl; rewrite Hst1; exact Hok).
    rewrite HtA. simpl. split; [reflexivity |].
    unfold storedList, entryOf. simpl. rewrite Hst1.
    symmetry. apply (Hs A HA).
Qed.

Lemma onUrlChange_away_and_back_witness :
  savedTimestamps
    (onUrlChange sampleParse "https://www.youtube.com/watch?v=abc123"
       (onUrlChange sampleParse "https://youtu.be/embed/xyz" watching))
  = twoBookmarks.
Proof.
  refine (proj2 (onUrlChange_away_and_back sampleParse
                   "https://youtu.be/embed/xyz"
                   "https://www.youtube.com/watch?v=abc123" "abc123" watching
                   eq_refl eq_refl _ eq_refl)).
  intros X [= <-]. reflexivity.
Defined.

(** ** Saving, deleting, clearing *)



(** X9: saving a bookmark and then deleting the last index undoes the save.
    With an active identifier other than [__proto__], a storage that answers
    and a list of JSON data, the list afterwards is the list from before the
    save, and so is the stored entry of the active identifier. *)
Theorem save_then_delete_last (time : Z) (note : string) (s : State) :
  truthy (videoId s) = true ->
  propertyKey (videoId s) <> "__proto__" ->
  Storable (savedTimestamps s) ->
  pendingErrors (store s) = [] ->
  let s' := deleteTimestamp (JsMath.ofZ (Z.of_nat (length (savedTimestamps s))))
              (saveTimestamp time note s) in
  savedTimestamps s' = savedTimestamps s
  /\ entryOf s' (propertyKey (videoId s)) = Some (JArr (savedTimestamps s)).
Proof.
  intros Hid Hkey Hjson Hok. cbv zeta.
  remember (saveTimestamp time note s) as s1 eqn:Hs1.
  assert (Hl1 : savedTimestamps s1
                = (savedTimestamps s ++ [bookmark time note])%list)
    by (subst s1; apply saveTimestamp_appends; exact Hid).
  assert (Hv1 : videoId s1 = videoId s).
  { subst s1. unfold saveTimestamp. rewrite Hid. simpl.
    rewrite renderTimestampList_videoId, persist_videoId. reflexivity. }
  assert (Hok1 : pendingErrors (store s1) = []).
  { subst s1. unfold saveTimestamp. rewrite Hid. simpl.
    apply (mutate_entry _ s Hok Hkey). }
  destruct (deleteTimestamp_inside
              (inject_Z (Z.of_nat (length (savedTimestamps s)))) s1)
    as (before & b & after & Hsplit & Hlen & Hdel).
  { change 0%Q with (inject_Z 0). rewrite <- Zle_Qle. lia. }
  { rewrite <- Zlt_Qlt, Hl1, length_app. simpl. lia. }
  rewrite Qfloor_Z in Hlen. apply Nat2Z.inj in Hlen.
  rewrite Hl1 in Hsplit.
  apply app_inj_1 in Hsplit as [<- Hafter]; [| symmetry; exact Hlen].
  destruct after as [|x after]; [| discriminate Hafter].
  rewrite app_nil_r in Hdel. unfold JsMath.ofZ. rewrite Hdel.
  destruct (mutate_persist_render (savedTimestamps s) s1) as (Hl & _ & _).
  split; [exact Hl |].
  rewrite <- Hv1 in Hkey |- *.
  rewrite (proj1 (mutate_entry _ s1 Hok1 Hkey)), Hjson. reflexivity.
Qed.

Lemma save_then_delete_last_witness :
  savedTimestamps
    (deleteTimestamp (JsMath.ofZ 2) (saveTimestamp 200 "end" watching))
  = twoBookmarks.
Proof.
  refine (proj1 (save_then_delete_last 200 "end" watching eq_refl _ eq_refl eq_refl)).
  discriminate.
Defined.

(** X28: [deleteTimestamp] on every Number.  An infinity and a finite
    Number below 0 or not below the length leave the state as it is, with no
    storage call.  A finite Number from 0 up to the length removes exactly
    the item at its integer part, which for an integer index is the item at
    that index, and persists: when the storage answers, the identifier is
    not [__proto__] and the list is JSON data, the shortened list is the
    stored entry afterwards.  At [NaN] the guard does not hold either, and
    the first item, if any, is removed. *)
Theorem deleteTimestamp_numbers (index : JSNumber) (s : State) :
  let n := Z.of_nat (length (savedTimestamps s)) in
  let s' := deleteTimestamp index s in
  (forall negative, index = Infinite negative -> s' = s)
  /\ (forall q, index = Finite q -> (q < 0 \/ inject_Z n <= q)%Q -> s' = s)
  /\ (forall q, index = Finite q -> (0 <= q)%Q -> (q < inject_Z n)%Q ->
      exists before b after,
        savedTimestamps s = (before ++ b :: after)%list
        /\ Z.of_nat (length before) = Qfloor q
        /\ savedTimestamps s' = (before ++ after)%list
        /\ (pendingErrors (store s) = [] ->
            propertyKey (videoId s) <> "__proto__" ->
            Storable (savedTimestamps s) ->
            entryOf s' (propertyKey (videoId s)) = Some (JArr (before ++ after))))
  /\ (index = NaN -> savedTimestamps s' = tail (savedTimestamps s)).
Proof.
  intros n s'. subst n s'. split; [| split; [| split]].
  - intros negative ->. unfold deleteTimestamp. cbv zeta.
    destruct negative; reflexivity.
  - intros q -> Hout. apply deleteTimestamp_outside. exact Hout.
  - intros q -> H0 Hn.
    destruct (deleteTimestamp_inside q s H0 Hn)
      as (before & b & after & Hsplit & Hlen & Hdel).
    exists before, b, after. split; [exact Hsplit |]. split; [exact Hlen |].
    rewrite Hdel.
    split; [apply (mutate_persist_render (before ++ after) s) |].
    intros Hok Hkey Hjson.
    etransitivity;
      [exact (proj1 (mutate_entry (before ++ after) s Hok Hkey)) |].
    f_equal. rewrite Hsplit in Hjson.
    apply Storable_app in Hjson as [Hb Hrest].
    change (b :: after) with ([b] ++ after)%list in Hrest.
    apply Storable_app in Hrest as [_ Ha].
    apply Storable_app. split; assumption.
  - intros ->. unfold deleteTimestamp. cbv zeta. simpl.
    rewrite (proj1 (mutate_persist_render _ s)).
    destruct (savedTimestamps s); reflexivity.
Qed.

Lemma deleteTimestamp_numbers_witness :
  deleteTimestamp (JsMath.ofZ 2) watching = watching
  /\ deleteTimestamp (JsMath.ofZ (-1)) watching = watching
  /\ savedTimestamps (deleteTimestamp (JsMath.ofZ 1) watching) = [bookmark 5 ""]
  /\ entryOf (deleteTimestamp (JsMath.ofZ 1) watching) "abc123"
     = Some (JArr [bookmark 5 ""]).
Proof.
  split; [| split].
  - apply (proj1 (proj2 (deleteTimestamp_numbers (JsMath.ofZ 2) watching))
             (inject_Z 2) eq_refl).
    right. vm_compute. discriminate.
  - apply (proj1 (proj2 (deleteTimestamp_numbers (JsMath.ofZ (-1)) watching))
             (inject_Z (-1)) eq_refl).
    left. reflexivity.
  - destruct (proj1 (proj2 (proj2 (deleteTimestamp_numbers (JsMath.ofZ 1) watching)))
                (inject_Z 1) eq_refl)
      as (before & b & after & Hsplit & Hlen & Hres & Hst).
    + vm_compute. discriminate.
    + reflexivity.
    + rewrite Qfloor_Z in Hlen.
      destruct before as [|x [|y before]]; simpl in Hlen; try lia.
      injection Hsplit as <- _ <-.
      split; [exact Hres |].
      apply Hst; [reflexivity | discriminate | reflexivity].
Defined.

(** X10: the clear button. When the prompt is declined nothing changes. When
    it is confirmed the list becomes empty, an overlay shows the placeholder
    row, and, when the storage answers and the active identifier is not
    [__proto__], the empty sequence is stored under the active identifier. *)
Theorem clearAllClick_clears (confirmed : bool) (s : State) :
  let s' := clearAllClick confirmed s in
  (confirmed = false -> s' = s)
  /\ (confirmed = true ->
      savedTimestamps s' = []
      /\ (forall p, container s' = Some p -> rows p = [RowEmpty])
      /\ (pendingErrors (store s) = [] ->
          propertyKey (videoId s) <> "__proto__" ->
          entryOf s' (propertyKey (videoId s)) = Some (JArr []))).
Proof.
  cbv zeta. split; intros ->; [reflexivity |].
  unfold clearAllClick. cbn [negb]. cbv zeta.
  destruct (mutate_persist_render [] s) as (Hl & _ & _).
  split; [exact Hl |]. split.
  - intros p Hc. rewrite (renderTimestampList_Rendered _ p Hc), Hl. reflexivity.
  - intros Hok Hkey. apply (mutate_entry [] s Hok Hkey).
Qed.

Lemma clearAllClick_clears_witness :
  clearAllClick false watching = watching
  /\ savedTimestamps (clearAllClick true watching) = []
  /\ entryOf (clearAllClick true watching) "abc123" = Some (JArr []).
Proof.
  split.
  - exact (proj1 (clearAllClick_clears false watching) eq_refl).
  - destruct (proj2 (clearAllClick_clears true watching) eq_refl)
      as (Hl & _ & Hp).
    split; [exact Hl | apply Hp; [reflexivity | discriminate]].
Defined.

(** ** Rejected storage calls *)

(** X11: when the read or the write of [persist] is rejected, a save still
    shows in memory but the stored mapping is left as it was; and after a
    rejected read, the next [load] of the active identifier brings back the
    stored list, without the saved bookmark. *)
Theorem saveTimestamp_storage_rejected (time : Z) (note : string) (s : State)
    (later : list bool) :
  truthy (videoId s) = true ->
  pendingErrors (store s) = true :: later
  \/ pendingErrors (store s) = false :: true :: later ->
  let s' := saveTimestamp time note s in
  savedTimestamps s' = (savedTimestamps s ++ [bookmark time note])%list
  /\ timestamps (store s') = timestamps (store s)
  /\ (pendingErrors (store s) = [true] ->
      savedTimestamps (loadSavedTimestampsForVideo (videoId s) s')
      = storedList s (propertyKey (videoId s))).
Proof.
  intros Hid Herr. cbv zeta.
  split; [apply saveTimestamp_appends; exact Hid |].
  unfold saveTimestamp. rewrite Hid. simpl.
  rewrite renderTimestampList_store.
  unfold persistSavedTimestampsForVideo, storageGet, storageSet. simpl.
  split.
  - destruct Herr as [-> | ->]; reflexivity.
  - intros Hone. rewrite Hone. simpl.
    unfold loadSavedTimestampsForVideo. rewrite Hid. simpl.
    rewrite renderTimestampList_store. simpl.
    unfold storedList, entryOf. reflexivity.
Qed.

Lemma saveTimestamp_storage_rejected_witness :
  savedTimestamps (saveTimestamp 9 "lost" readRejected)
  = [bookmark 5 ""; bookmark 130 "intro"; bookmark 9 "lost"]
  /\ timestamps (store (saveTimestamp 9 "lost" writeRejected))
     = timestamps (store watching)
  /\ savedTimestamps
       (loadSavedTimestampsForVideo (Some "abc123")
          (saveTimestamp 9 "lost" readRejected))
     = twoBookmarks.
Proof.
  split; [| split].
  - exact (proj1 (saveTimestamp_storage_rejected 9 "lost" readRejected []
                    eq_refl (or_introl eq_refl))).
  - exact (proj1 (proj2 (saveTimestamp_storage_rejected 9 "lost" writeRejected []
                           eq_refl (or_intror eq_refl)))).
  - exact (proj2 (proj2 (saveTimestamp_storage_rejected 9 "lost" readRejected []
                           eq_refl (or_introl eq_refl))) eq_refl).
Defined.

(** ** The resolver on the URL shapes it knows *)

Lemma matchSegment_unfold (lit s : string) :
  JsString.matchSegment lit s =
  match JsString.matchSegmentHere lit s with
  | Some cap => Some cap
  | None =>
      match s with
      | EmptyString => None
      | String _ s' => JsString.matchSegment lit s'
      end
  end.
Proof. destruct s; reflexivity. Qed.

Lemma stripPrefix_append (p s : string) :
  JsString.stripPrefix p (p +:+ s) = Some s.
Proof.
  induction p as [|c p IH]; [destruct s; reflexivity |].
  rewrite append_String. simpl. rewrite Ascii.eqb_refl. exact IH.
Qed.

(** The greedy run stops where the segment ends. *)
Lemma takeSeg_segment (id rest : string) :
  allChars JsString.isSegChar id = true ->
  (rest = "" \/ exists c r, rest = String c r /\ JsString.isSegChar c = false) ->
  JsString.takeSeg (id +:+ rest) = id.
Proof.
  intros Hall Hrest. induction id as [|c id IH].
  - rewrite append_empty.
    destruct Hrest as [-> | (c & r & -> & Hc)]; simpl; [| rewrite Hc]; reflexivity.
  - simpl in Hall. apply andb_true_iff in Hall. destruct Hall as [Hc Hall].
    rewrite append_String. simpl. rewrite Hc, (IH Hall). reflexivity.
Qed.

Lemma matchSegment_at_start (lit id rest : string) :
  id <> "" ->
  allChars JsString.isSegChar id = true ->
  (rest = "" \/ exists c r, rest = String c r /\ JsString.isSegChar c = false) ->
  JsString.matchSegment lit (lit +:+ id +:+ rest) = Some id.
Proof.
  intros Hne Hall Hrest. rewrite matchSegment_unfold.
  unfold JsString.matchSegmentHere.
  rewrite stripPrefix_append, takeSeg_segment by auto.
  apply isEmpty_false in Hne. rewrite Hne. reflexivity.
Qed.

(** A text without [/] holds no match of a pattern that starts with [/]. *)
Lemma stripPrefix_String (a b : ascii) (p s : string) :
  JsString.stripPrefix (String a p) (String b s)
  = if Ascii.eqb a b then JsString.stripPrefix p s else None.
Proof. reflexivity. Qed.

Lemma isSegChar_not_slash (c : ascii) :
  JsString.isSegChar c = true -> Ascii.eqb "/" c = false.
Proof.
  unfold JsString.isSegChar. intros Hc. apply andb_true_iff in Hc.
  destruct Hc as [Hc _]. apply negb_true_iff in Hc.
  rewrite Ascii.eqb_sym. exact Hc.
Qed.

Lemma stripPrefix_slash_segment (lit t : string) :
  allChars JsString.isSegChar t = true ->
  JsString.stripPrefix (String "/" lit) t = None.
Proof.
  destruct t as [|c t]; [reflexivity |]. intros Hall.
  change (JsString.isSegChar c && allChars JsString.isSegChar t = true) in Hall.
  apply andb_true_iff in Hall. destruct Hall as [Hc _].
  rewrite stripPrefix_String, (isSegChar_not_slash c Hc). reflexivity.
Qed.

Lemma matchSegment_segment (lit t : string) :
  allChars JsString.isSegChar t = true ->
  JsString.matchSegment (String "/" lit) t = None.
Proof.
  induction t as [|c t IH]; intros Hall.
  - reflexivity.
  - rewrite matchSegment_unfold. unfold JsString.matchSegmentHere.
    rewrite stripPrefix_slash_segment by exact Hall.
    simpl in Hall. apply andb_true_iff in Hall. apply IH. apply Hall.
Qed.

(** A pattern that goes on after its first [/] with a text holding another
    [/] does not match inside [/<segment>]. *)
Lemma stripPrefix_inner_slash (a b t : string) :
  allChars JsString.isSegChar t = true ->
  JsString.stripPrefix (a +:+ String "/" b) t = None.
Proof.
  revert t. induction a as [|c a IH]; intros t Hall.
  - rewrite append_empty. apply stripPrefix_slash_segment. exact Hall.
  - rewrite append_String. destruct t as [|d t]; [reflexivity |].
    rewrite stripPrefix_String.
    destruct (Ascii.eqb c d); [| reflexivity].
    change (JsString.isSegChar d && allChars JsString.isSegChar t = true) in Hall.
    apply andb_true_iff in Hall. apply IH. apply Hall.
Qed.

Lemma embed_not_in_segment (t : string) :
  allChars JsString.isSegChar t = true ->
  JsString.matchSegment "/embed/" (String "/" t) = None.
Proof.
  intros Hall. rewrite matchSegment_unfold. unfold JsString.matchSegmentHere.
  rewrite stripPrefix_String, Ascii.eqb_refl.
  replace (JsString.stripPrefix "embed/" t) with (@None string)
    by (symmetry; apply (stripPrefix_inner_slash "embed" "" t Hall)).
  apply (matchSegment_segment "embed/" t Hall).
Qed.

Lemma shorts_not_in_segment (t : string) :
  allChars JsString.isSegChar t = true ->
  JsString.matchSegment "/shorts/" (String "/" t) = None.
Proof.
  intros Hall. rewrite matchSegment_unfold. unfold JsString.matchSegmentHere.
  rewrite stripPrefix_String, Ascii.eqb_refl.
  replace (JsString.stripPrefix "shorts/" t) with (@None string)
    by (symmetry; apply (stripPrefix_inner_slash "shorts" "" t Hall)).
  apply (matchSegment_segment "shorts/" t Hall).
Qed.

Lemma split_segment (t : string) :
  allChars JsString.isSegChar t = true ->
  JsString.split "/" t = [t].
Proof.
  induction t as [|c t IH]; intros Hall; [reflexivity |].
  change (JsString.isSegChar c && allChars JsString.isSegChar t = true) in Hall.
  apply andb_true_iff in Hall. destruct Hall as [Hc Hall].
  change (JsString.split "/" (String c t))
    with (if Ascii.eqb c "/" then EmptyString :: JsString.split "/" t
          else match JsString.split "/" t with
               | seg :: rest => String c seg :: rest
               | [] => [JsString.str c]
               end).
  rewrite Ascii.eqb_sym, (isSegChar_not_slash c Hc), (IH Hall). reflexivity.
Qed.

(** X14: an embedded-player URL resolves to its segment: without a truthy
    [v] parameter, whatever the host, a path that starts with [/embed/]
    followed by a non-empty segment (no [/], no [?]) resolves to that
    segment, also when the path goes on after the segment. *)
Theorem getVideoIdFromUrl_embed (parseURL : string -> option URL)
    (u id rest : string) (url : URL) :
  parseURL u = Some url ->
  truthy (searchParams_get (searchParams url) "v") = false ->
  pathname url = "/embed/" +:+ id +:+ rest ->
  id <> "" ->
  allChars JsString.isSegChar id = true ->
  (rest = "" \/ exists r, rest = String "/" r) ->
  getVideoIdFromUrl parseURL u = Some id.
Proof.
  intros Hp Hv Hpath Hne Hall Hrest.
  unfold getVideoIdFromUrl. rewrite Hp, Hv, Hpath.
  rewrite matchSegment_at_start; [reflexivity | exact Hne | exact Hall |].
  destruct Hrest as [-> | (r & ->)]; [left; reflexivity |].
  right. exists "/"%char, r. split; reflexivity.
Qed.

Lemma getVideoIdFromUrl_embed_witness :
  getVideoIdFromUrl sampleParse "https://www.youtube.com/embed/abc123"
  = Some "abc123".
Proof.
  apply (getVideoIdFromUrl_embed sampleParse _ "abc123" ""
           {| hostname := "www.youtube.com"; pathname := "/embed/abc123";
              searchParams := [] |});
    try reflexivity; [discriminate | left; reflexivity].
Defined.

(** X15: a short-form URL resolves to its segment: without a truthy [v]
    parameter, whatever the host, the path [/shorts/<segment>] with a
    non-empty segment resolves to that segment. *)
Theorem getVideoIdFromUrl_shorts (parseURL : string -> option URL)
    (u id : string) (url : URL) :
  parseURL u = Some url ->
  truthy (searchParams_get (searchParams url) "v") = false ->
  pathname url = "/shorts/" +:+ id ->
  id <> "" ->
  allChars JsString.isSegChar id = true ->
  getVideoIdFromUrl parseURL u = Some id.
Proof.
  intros Hp Hv Hpath Hne Hall.
  unfold getVideoIdFromUrl. rewrite Hp, Hv, Hpath.
  assert (Hembed : JsString.matchSegment "/embed/" ("/shorts/" +:+ id) = None).
  { rewrite !append_String, append_empty.
    do 7 (rewrite matchSegment_unfold; unfold JsString.matchSegmentHere;
          rewrite ?stripPrefix_String; cbv [Ascii.eqb Bool.eqb]).
    apply embed_not_in_segment. exact Hall. }
  rewrite Hembed.
  replace ("/shorts/" +:+ id) with ("/shorts/" +:+ id +:+ "")
    by (rewrite append_nil_r; reflexivity).
  rewrite matchSegment_at_start; auto.
Qed.

Lemma getVideoIdFromUrl_shorts_witness :
  getVideoIdFromUrl sampleParse "https://www.youtube.com/shorts/abc123"
  = Some "abc123".
Proof.
  apply (getVideoIdFromUrl_shorts sampleParse _ "abc123"
           {| hostname := "www.youtube.com"; pathname := "/shorts/abc123";
              searchParams := [] |});
    try reflexivity. discriminate.
Defined.

(** X16: a short link resolves to its segment: without a truthy [v]
    parameter, on a host whose name contains [youtu.be], the path
    [/<segment>] with a non-empty segment resolves to that segment. *)
Theorem getVideoIdFromUrl_short_link (parseURL : string -> option URL)
    (u id : string) (url : URL) :
  parseURL u = Some url ->
  truthy (searchParams_get (searchParams url) "v") = false ->
  JsString.includes "youtu.be" (hostname url) = true ->
  pathname url = String "/" id ->
  id <> "" ->
  allChars JsString.isSegChar id = true ->
  getVideoIdFromUrl parseURL u = Some id.
Proof.
  intros Hp Hv Hhost Hpath Hne Hall.
  unfold getVideoIdFromUrl. rewrite Hp, Hv, Hpath, Hhost.
  rewrite embed_not_in_segment, shorts_not_in_segment by exact Hall.
  unfold pathSegments.
  change (JsString.split "/" (String "/" id))
    with (EmptyString :: JsString.split "/" id).
  rewrite split_segment by exact Hall.
  simpl. apply isEmpty_false in Hne. rewrite Hne. reflexivity.
Qed.

Lemma getVideoIdFromUrl_short_link_witness :
  getVideoIdFromUrl sampleParse "https://youtu.be/abc123" = Some "abc123".
Proof.
  apply (getVideoIdFromUrl_short_link sampleParse _ "abc123"
           {| hostname := "youtu.be"; pathname := "/abc123";
              searchParams := [] |});
    try reflexivity. discriminate.
Defined.

(** ** Trimming *)

Lemma trimStart_head (s : string) : startsWithSpace (JsString.trimStart s) = false.
Proof.
  induction s as [|c s IH]; [reflexivity |]. simpl.
  destruct (JsString.isSpace c) eqn:Hc; [exact IH | simpl; exact Hc].
Qed.

Lemma trimStart_id (s : string) :
  startsWithSpace s = false -> JsString.trimStart s = s.
Proof. destruct s as [|c s]; simpl; [reflexivity | intros ->; reflexivity]. Qed.

Lemma trimEnd_String (c : ascii) (t : string) :
  JsString.isSpace c = false ->
  JsString.trimEnd (String c t) = String c (JsString.trimEnd t).
Proof.
  intros Hc. simpl. destruct (JsString.trimEnd t); [rewrite Hc |]; reflexivity.
Qed.

Lemma trimEnd_head (s : string) :
  startsWithSpace s = false -> startsWithSpace (JsString.trimEnd s) = false.
Proof.
  destruct s as [|c s]; [reflexivity |]. simpl startsWithSpace at 1. intros Hc.
  rewrite trimEnd_String by exact Hc. exact Hc.
Qed.

Lemma trimEnd_last (s : string) : endsWithSpace (JsString.trimEnd s) = false.
Proof.
  induction s as [|c s IH]; [reflexivity |]. simpl.
  destruct (JsString.trimEnd s) as [|d t] eqn:Ht.
  - destruct (JsString.isSpace c) eqn:Hc; simpl; [reflexivity | exact Hc].
  - exact IH.
Qed.

Lemma trimEnd_id (s : string) :
  endsWithSpace s = false -> JsString.trimEnd s = s.
Proof.
  induction s as [|c s IH]; [reflexivity |]. intros He. simpl.
  destruct s as [|d t].
  - simpl in *. rewrite He. reflexivity.
  - rewrite (IH He). reflexivity.
Qed.

Lemma trimEnd_spaces (s : string) :
  allChars JsString.isSpace s = true -> JsString.trimEnd s = "".
Proof.
  induction s as [|c s IH]; [reflexivity |]. simpl. intros Hall.
  apply andb_true_iff in Hall. destruct Hall as [Hc Hall].
  rewrite (IH Hall), Hc. reflexivity.
Qed.


Lemma trim_trimmed (s : string) :
  startsWithSpace (JsString.trim s) = false
  /\ endsWithSpace (JsString.trim s) = false.
Proof.
  unfold JsString.trim. split; [| apply trimEnd_last].
  apply trimEnd_head, trimStart_head.
Qed.

Lemma trim_id (s : string) :
  startsWithSpace s = false -> endsWithSpace s = false -> JsString.trim s = s.
Proof.
  intros Hs He. unfold JsString.trim. rewrite trimStart_id by exact Hs.
  apply trimEnd_id. exact He.
Qed.



(** ** File name of the export *)

Lemma allChars_trimStart (f : ascii -> bool) (s : string) :
  allChars f s = true -> allChars f (JsString.trimStart s) = true.
Proof.
  induction s as [|c s IH]; [reflexivity |]. simpl. intros Hall.
  destruct (JsString.isSpace c); [| exact Hall].
  apply andb_true_iff in Hall. apply IH, Hall.
Qed.

Lemma allChars_trimEnd (f : ascii -> bool) (s : string) :
  allChars f s = true -> allChars f (JsString.trimEnd s) = true.
Proof.
  induction s as [|c s IH]; [reflexivity |]. simpl. intros Hall.
  apply andb_true_iff in Hall. destruct Hall as [Hc Hall].
  specialize (IH Hall). destruct (JsString.trimEnd s) as [|d t].
  - destruct (JsString.isSpace c); simpl; [reflexivity | rewrite Hc; reflexivity].
  - simpl. simpl in IH. rewrite Hc, IH. reflexivity.
Qed.

Lemma allChars_slice0 (f : ascii -> bool) (n : nat) (s : string) :
  allChars f s = true -> allChars f (Filename.slice0 n s) = true.
Proof.
  revert s. induction n as [|n IH]; intros [|c s]; simpl; auto.
  intros Hall. apply andb_true_iff in Hall. destruct Hall as [Hc Hall].
  rewrite Hc, (IH s Hall). reflexivity.
Qed.

Lemma slice0_length (n : nat) (s : string) :
  (String.length (Filename.slice0 n s) <= n)%nat.
Proof.
  revert s. induction n as [|n IH]; intros [|c s]; simpl; try lia.
  specialize (IH s). lia.
Qed.

Lemma slice0_id (n : nat) (s : string) :
  (String.length s <= n)%nat -> Filename.slice0 n s = s.
Proof.
  revert s. induction n as [|n IH]; intros [|c s]; simpl; try reflexivity;
    try lia.
  intros Hlen. rewrite IH by lia. reflexivity.
Qed.

Lemma replaceUnsafe_safe (s : string) :
  allChars Filename.isSafeChar (Filename.replaceUnsafe s) = true.
Proof.
  induction s as [|c s IH]; [reflexivity |]. simpl. rewrite IH.
  destruct (Filename.isSafeChar c) eqn:Hc; [rewrite Hc |]; reflexivity.
Qed.

Lemma replaceUnsafe_id (s : string) :
  allChars Filename.isSafeChar s = true -> Filename.replaceUnsafe s = s.
Proof.
  induction s as [|c s IH]; [reflexivity |]. simpl. intros Hall.
  apply andb_true_iff in Hall. destruct Hall as [Hc Hall].
  rewrite Hc, (IH Hall). reflexivity.
Qed.

Lemma sanitizeFilename_bounds (s : string) :
  (String.length (Filename.sanitizeFilename s) <= 60)%nat
  /\ allChars Filename.isSafeChar (Filename.sanitizeFilename s) = true.
Proof.
  unfold Filename.sanitizeFilename. split; [apply slice0_length |].
  apply allChars_slice0. unfold JsString.trim.
  apply allChars_trimEnd, allChars_trimStart, replaceUnsafe_safe.
Qed.

(** X18: [sanitizeFilename] yields at most 60 characters, each of them a
    word character, white space or a hyphen; the empty title becomes
    [export]; and a title that is already safe, has no surrounding white
    space and at most 60 characters is returned as it is. *)
Theorem sanitizeFilename_safe (s : string) :
  (String.length (Filename.sanitizeFilename s) <= 60)%nat
  /\ allChars Filename.isSafeChar (Filename.sanitizeFilename s) = true
  /\ (s = "" -> Filename.sanitizeFilename s = "export")
  /\ (s <> "" -> allChars Filename.isSafeChar s = true ->
      startsWithSpace s = false -> endsWithSpace s = false ->
      (String.length s <= 60)%nat ->
      Filename.sanitizeFilename s = s).
Proof.
  destruct (sanitizeFilename_bounds s) as [Hbound Hsafe].
  split; [exact Hbound |]. split; [exact Hsafe |].
  unfold Filename.sanitizeFilename. split.
  - intros ->. reflexivity.
  - intros Hne Hall Hs He Hlen. apply isEmpty_false in Hne. rewrite Hne.
    rewrite replaceUnsafe_id by exact Hall.
    rewrite trim_id by assumption. apply slice0_id. exact Hlen.
Qed.

Lemma sanitizeFilename_safe_witness :
  Filename.sanitizeFilename "" = "export"
  /\ Filename.sanitizeFilename "My video - part 2" = "My video - part 2".
Proof.
  split.
  - exact (proj1 (proj2 (proj2 (sanitizeFilename_safe ""))) eq_refl).
  - apply (proj2 (proj2 (proj2 (sanitizeFilename_safe "My video - part 2"))));
      try reflexivity; [discriminate | simpl; lia].
Defined.

Lemma replaceUnsafe_head (s : string) :
  s <> "" -> startsWithSpace s = false ->
  Filename.replaceUnsafe s <> ""
  /\ startsWithSpace (Filename.replaceUnsafe s) = false.
Proof.
  destruct s as [|c s]; [congruence |]. intros _ Hc. simpl in *.
  split; [discriminate |].
  destruct (Filename.isSafeChar c); [exact Hc | reflexivity].
Qed.

Lemma sanitizeFilename_nonempty (title : string) :
  startsWithSpace title = false ->
  Filename.sanitizeFilename title <> "".
Proof.
  intros Hs. unfold Filename.sanitizeFilename.
  destruct title as [|c t]; [discriminate |].
  simpl JsString.isEmpty. cbv iota.
  destruct (replaceUnsafe_head (String c t)) as [Hne Hh];
    [discriminate | exact Hs |].
  destruct (Filename.replaceUnsafe (String c t)) as [|d r]; [congruence |].
  simpl in Hh. unfold JsString.trim.
  rewrite trimStart_id by exact Hh. rewrite trimEnd_String by exact Hh.
  discriminate.
Qed.

(** X19: the name of the exported file is always [timestamps_<name>.csv]
    where [<name>] has between 1 and 60 characters, each a word character,
    white space or a hyphen, whatever the page title, the document title and
    the identifier are. *)
Theorem csvFilename_shape (h1Title : option string) (documentTitle : string)
    (id : option string) :
  exists name,
    Filename.csvFilename h1Title documentTitle id
    = "timestamps_" +:+ name +:+ ".csv"
    /\ name <> ""
    /\ (String.length name <= 60)%nat
    /\ allChars Filename.isSafeChar name = true.
Proof.
  unfold Filename.csvFilename. cbv zeta.
  eexists. split; [reflexivity |].
  destruct (sanitizeFilename_bounds
              (JsString.trim
                 (Filename.orString h1Title
                    (Filename.orString (Some documentTitle)
                       (Filename.orString id "timestamps")))))
    as (Hlen & Hall).
  split; [| split; [exact Hlen | exact Hall]].
  apply sanitizeFilename_nonempty. apply trim_trimmed.
Qed.

(** ** Displayed times can be read back *)

Lemma string_of_uint_digits (d : Decimal.uint) :
  allChars isDigit (NilEmpty.string_of_uint d) = true.
Proof. induction d; simpl; auto. Qed.

Lemma ofZ_digits (n : Z) : 0 <= n -> allChars isDigit (JsString.ofZ n) = true.
Proof.
  intros Hn. unfold JsString.ofZ. destruct n as [|p|p]; [reflexivity | | lia].
  simpl. unfold NilZero.string_of_uint.
  destruct (Pos.to_uint p); try reflexivity; apply string_of_uint_digits.
Qed.

Lemma parseSegment_ofZ (n : Z) : parseSegment (JsString.ofZ n) = Some n.
Proof.
  unfold parseSegment, JsString.ofZ. rewrite NilZero.isi.
  - simpl. rewrite DecimalZ.of_to. reflexivity.
  - destruct n; simpl; try discriminate.
    intros [= H]. exact (Unsigned.to_uint_nonnil _ H).
  - destruct n; simpl; try discriminate.
    intros [= H]. exact (Unsigned.to_uint_nonnil _ H).
Qed.

Lemma padStart2_digits (s : string) :
  allChars isDigit s = true -> allChars isDigit (JsString.padStart2 s) = true.
Proof.
  destruct s as [|c [|d t]]; simpl; auto.
Qed.

Lemma parseSegment_padStart2 (s : string) (n : Z) :
  allChars isDigit s = true ->
  parseSegment s = Some n -> parseSegment (JsString.padStart2 s) = Some n.
Proof.
  destruct s as [|c [|d t]]; [discriminate | | auto].
  intros Hd. simpl in Hd. rewrite andb_true_r in Hd.
  unfold parseSegment, NilZero.int_of_string. simpl.
  destruct c as [[|] [|] [|] [|] [|] [|] [|] [|]]; try discriminate Hd;
    simpl; auto.
Qed.

Lemma isDigit_not_colon (c : ascii) :
  isDigit c = true -> Ascii.eqb c ":" = false.
Proof.
  intros Hd. destruct (Ascii.eqb c ":") eqn:Hc; [| reflexivity].
  apply Ascii.eqb_eq in Hc. subst c. discriminate Hd.
Qed.

Lemma split_String (sep c : ascii) (s : string) :
  JsString.split sep (String c s)
  = if Ascii.eqb c sep then EmptyString :: JsString.split sep s
    else match JsString.split sep s with
         | seg :: rest => String c seg :: rest
         | [] => [JsString.str c]
         end.
Proof. reflexivity. Qed.

Lemma split_digits_colon (a b : string) :
  allChars isDigit a = true ->
  JsString.split ":" (a +:+ String ":" b) = a :: JsString.split ":" b.
Proof.
  induction a as [|c a IH]; intros Hd.
  - rewrite append_empty, split_String, Ascii.eqb_refl. reflexivity.
  - change (isDigit c && allChars isDigit a = true) in Hd.
    apply andb_true_iff in Hd. destruct Hd as [Hc Hd].
    rewrite append_String, split_String, (isDigit_not_colon c Hc), (IH Hd).
    reflexivity.
Qed.

Lemma split_digits (a : string) :
  allChars isDigit a = true -> JsString.split ":" a = [a].
Proof.
  induction a as [|c a IH]; intros Hd; [reflexivity |].
  change (isDigit c && allChars isDigit a = true) in Hd.
  apply andb_true_iff in Hd. destruct Hd as [Hc Hd].
  rewrite split_String, (isDigit_not_colon c Hc), (IH Hd). reflexivity.
Qed.

Lemma parseSegment_pad (n : Z) :
  0 <= n -> parseSegment (JsString.padStart2 (JsString.ofZ n)) = Some n.
Proof.
  intros Hn. apply parseSegment_padStart2;
    [apply ofZ_digits; exact Hn | apply parseSegment_ofZ].
Qed.

Lemma pad_digits (n : Z) :
  0 <= n -> allChars isDigit (JsString.padStart2 (JsString.ofZ n)) = true.
Proof. intros Hn. apply padStart2_digits, ofZ_digits. exact Hn. Qed.

Lemma parseTime_formatTime (seconds : Z) :
  0 <= seconds -> parseTime (formatTime seconds) = Some seconds.
Proof.
  intros Hs. unfold formatTime. cbv zeta.
  assert (Hm : 0 <= Z.rem seconds 3600 / 60)
    by (rewrite Z.rem_mod_nonneg by lia; Z.div_mod_to_equations; lia).
  assert (Hsec : 0 <= Z.rem seconds 60)
    by (rewrite Z.rem_mod_nonneg by lia; Z.div_mod_to_equations; lia).
  assert (Hh : 0 <= seconds / 3600) by (Z.div_mod_to_equations; lia).
  unfold parseTime.
  destruct (0 <? seconds / 3600) eqn:Hhrs.
  - rewrite append_assoc, append_String, append_empty.
    rewrite split_digits_colon by (apply pad_digits; exact Hh).
    rewrite append_String, append_empty.
    rewrite split_digits_colon by (apply pad_digits; exact Hm).
    rewrite split_digits by (apply pad_digits; exact Hsec).
    rewrite !parseSegment_pad by assumption. f_equal.
    rewrite !Z.rem_mod_nonneg by lia. Z.div_mod_to_equations. lia.
  - rewrite append_empty, append_String, append_empty.
    rewrite split_digits_colon by (apply pad_digits; exact Hm).
    rewrite split_digits by (apply pad_digits; exact Hsec).
    rewrite !parseSegment_pad by assumption. f_equal.
    apply Z.ltb_ge in Hhrs.
    rewrite !Z.rem_mod_nonneg by lia. Z.div_mod_to_equations. lia.
Qed.

(** X17: the display of a time loses nothing: for whole seconds from 0 up
    to, and not including, [2^53] (the integers on which the arithmetic of
    [formatTime] is exact), the text of [formatTime] reads back as the same
    number of seconds (minutes and seconds, with the hours in front from one
    hour on), so that two different such times are never displayed alike. *)
Theorem formatTime_lossless (a b : Z) :
  0 <= a < 9007199254740992 -> 0 <= b < 9007199254740992 ->
  parseTime (formatTime a) = Some a
  /\ (formatTime a = formatTime b -> a = b).
Proof.
  intros [Ha _] [Hb _]. split; [apply parseTime_formatTime; exact Ha |].
  intros Heq.
  pose proof (parseTime_formatTime a Ha) as Hpa.
  pose proof (parseTime_formatTime b Hb) as Hpb.
  rewrite Heq, Hpb in Hpa. congruence.
Qed.

Lemma formatTime_lossless_witness :
  parseTime (formatTime 3661) = Some 3661
  /\ (formatTime 3661 = formatTime 61 -> 3661 = 61).
Proof. apply (formatTime_lossless 3661 61); lia. Defined.

(** ** Playback quantities *)

Lemma leb_refl (a : JSNumber) : a <> NaN -> JsMath.leb a a = true.
Proof.
  destruct a as [|[|]|q]; simpl; try congruence; intros _.
  apply Qle_bool_iff, Qle_refl.
Qed.

Lemma leb_trans (a b c : JSNumber) :
  JsMath.leb a b = true -> JsMath.leb b c = true -> JsMath.leb a c = true.
Proof.
  destruct a as [|[|]|x], b as [|[|]|y], c as [|[|]|z]; simpl;
    try congruence.
  rewrite !Qle_bool_iff. apply Qle_trans.
Qed.

Lemma leb_total (a b : JSNumber) :
  a <> NaN -> b <> NaN -> JsMath.leb a b = false -> JsMath.leb b a = true.
Proof.
  destruct a as [|[|]|x], b as [|[|]|y]; simpl; try congruence.
  intros _ _ Hxy. apply Qle_bool_iff.
  destruct (Qlt_le_dec y x) as [Hlt | Hle]; [apply Qlt_le_weak; exact Hlt |].
  apply Qle_bool_iff in Hle. congruence.
Qed.

Lemma leb_not_NaN (a b : JSNumber) :
  JsMath.leb a b = true -> a <> NaN /\ b <> NaN.
Proof. destruct a as [|[|]|x], b as [|[|]|y]; simpl; split; congruence. Qed.

Lemma max_cases (a b : JSNumber) :
  a <> NaN -> b <> NaN ->
  JsMath.max a b = if JsMath.leb a b then b else a.
Proof. destruct a as [|[|]|x], b as [|[|]|y]; simpl; congruence. Qed.

Lemma min_cases (a b : JSNumber) :
  a <> NaN -> b <> NaN ->
  JsMath.min a b = if JsMath.leb a b then a else b.
Proof. destruct a as [|[|]|x], b as [|[|]|y]; simpl; congruence. Qed.

Lemma max_bounds (a b : JSNumber) :
  a <> NaN -> b <> NaN ->
  JsMath.max a b <> NaN
  /\ JsMath.leb a (JsMath.max a b) = true
  /\ JsMath.leb b (JsMath.max a b) = true.
Proof.
  intros Ha Hb. rewrite max_cases by assumption.
  destruct (JsMath.leb a b) eqn:Hab.
  - split; [exact Hb |]. split; [exact Hab | apply leb_refl; exact Hb].
  - split; [exact Ha |]. split; [apply leb_refl; exact Ha |].
    apply leb_total; assumption.
Qed.

Lemma min_bounds (a b : JSNumber) :
  a <> NaN -> b <> NaN ->
  JsMath.min a b <> NaN
  /\ JsMath.leb (JsMath.min a b) a = true
  /\ JsMath.leb (JsMath.min a b) b = true.
Proof.
  intros Ha Hb. rewrite min_cases by assumption.
  destruct (JsMath.leb a b) eqn:Hab.
  - split; [exact Ha |]. split; [apply leb_refl; exact Ha | exact Hab].
  - split; [exact Hb |]. split; [| apply leb_refl; exact Hb].
    apply leb_total; assumption.
Qed.

Lemma clamp_between (v a b : JSNumber) :
  JsMath.leb a b = true -> v <> NaN -> between a (clamp v a b) b.
Proof.
  intros Hab Hv. destruct (leb_not_NaN a b Hab) as [Ha Hb].
  unfold clamp, between.
  destruct (max_bounds v a Hv Ha) as (Hm & Hvm & Ham).
  destruct (min_bounds (JsMath.max v a) b Hm Hb) as (_ & Hle & Hleb).
  split; [| exact Hleb].
  rewrite min_cases by assumption.
  destruct (JsMath.leb (JsMath.max v a) b); [exact Ham | exact Hab].
Qed.

(** X20: [clamp(v, a, b)] with [a <= b] and a value [v] that is a number lies
    between [a] and [b]; a value already between them comes back equal (each
    is at most the other); and [NaN] goes through as [NaN]. *)
Theorem clamp_range (v a b : JSNumber) :
  JsMath.leb a b = true ->
  (v <> NaN -> between a (clamp v a b) b)
  /\ (between a v b -> between v (clamp v a b) v)
  /\ (v = NaN -> clamp v a b = NaN).
Proof.
  intros Hab. destruct (leb_not_NaN a b Hab) as [Ha Hb].
  split; [| unfold clamp, between; split].
  - intros Hv. apply clamp_between; assumption.
  - intros [Hav Hvb]. destruct (leb_not_NaN a v Hav) as [_ Hv].
    destruct (max_bounds v a Hv Ha) as (Hm & Hvm & Ham).
    assert (Hmv : JsMath.leb (JsMath.max v a) v = true).
    { rewrite max_cases by assumption.
      destruct (JsMath.leb v a); [exact Hav | apply leb_refl; exact Hv]. }
    rewrite min_cases by assumption.
    destruct (JsMath.leb (JsMath.max v a) b) eqn:Hmb.
    + split; assumption.
    + exfalso. pose proof (leb_trans _ _ _ Hmv Hvb). congruence.
  - intros ->. reflexivity.
Qed.

Lemma clamp_range_witness :
  between (Finite 0) (clamp (Finite (250 # 1)) (Finite 0) (Finite (100 # 1)))
    (Finite (100 # 1))
  /\ clamp NaN (Finite 0) (Finite (100 # 1)) = NaN.
Proof.
  split.
  - apply (proj1 (clamp_range (Finite (250 # 1)) (Finite 0) (Finite (100 # 1))
                    eq_refl)).
    discriminate.
  - apply (proj2 (proj2 (clamp_range NaN (Finite 0) (Finite (100 # 1)) eq_refl))).
    reflexivity.
Defined.

(** X21: [clamp] keeps the order of the values it is given: for fixed bounds
    [a <= b], [v <= w] gives [clamp(v, a, b) <= clamp(w, a, b)]. *)
Theorem clamp_monotone (v w a b : JSNumber) :
  JsMath.leb a b = true ->
  JsMath.leb v w = true ->
  JsMath.leb (clamp v a b) (clamp w a b) = true.
Proof.
  intros Hab Hvw. destruct (leb_not_NaN a b Hab) as [Ha Hb].
  destruct (leb_not_NaN v w Hvw) as [Hv Hw].
  destruct (max_bounds v a Hv Ha) as (Hmv & Hv1 & Hv2).
  destruct (max_bounds w a Hw Ha) as (Hmw & Hw1 & Hw2).
  assert (Hmax : JsMath.leb (JsMath.max v a) (JsMath.max w a) = true).
  { rewrite (max_cases v a) by assumption.
    destruct (JsMath.leb v a); [exact Hw2 |].
    exact (leb_trans _ _ _ Hvw Hw1). }
  unfold clamp.
  destruct (min_bounds (JsMath.max v a) b Hmv Hb) as (_ & Hl1 & Hl2).
  rewrite (min_cases (JsMath.max w a) b) by assumption.
  destruct (JsMath.leb (JsMath.max w a) b);
    [exact (leb_trans _ _ _ Hl1 Hmax) | exact Hl2].
Qed.

Lemma clamp_monotone_witness :
  JsMath.leb (clamp (Finite (1 # 2)) (Finite 0) (Finite (100 # 1)))
             (clamp (Finite (250 # 1)) (Finite 0) (Finite (100 # 1))) = true.
Proof. apply clamp_monotone; reflexivity. Defined.

Lemma orElse_not_NaN (a b : JSNumber) : b <> NaN -> JsMath.orElse a b <> NaN.
Proof. unfold JsMath.orElse. destruct a as [|[|]|q]; simpl; try congruence.
  destruct (Qeq_bool q 0); simpl; congruence. Qed.

(** X22: [getCurrentTimeSafe] always gives a number that is not negative,
    never [NaN]; without a playback element it gives 0; and when the element
    reports a finite duration above 0 the result is at most that duration. *)
Theorem getCurrentTimeSafe_clamped (videoPlayer : option Player) :
  let t := getCurrentTimeSafe videoPlayer in
  t <> NaN
  /\ JsMath.leb (Finite 0) t = true
  /\ (videoPlayer = None -> t = Finite 0)
  /\ (forall p d, videoPlayer = Some p -> duration p = Finite d -> (0 < d)%Q ->
        JsMath.leb t (Finite d) = true).
Proof.
  cbv zeta. unfold getCurrentTimeSafe.
  destruct videoPlayer as [p|].
  - assert (Hc : JsMath.orElse (currentTime p) (Finite 0) <> NaN)
      by (apply orElse_not_NaN; discriminate).
    assert (Hd : JsMath.orElse (duration p) (Infinite false) <> NaN)
      by (apply orElse_not_NaN; discriminate).
    destruct (min_bounds _ _ Hc Hd) as (Hm & Hm1 & Hm2).
    destruct (max_bounds (Finite 0) _ ltac:(discriminate) Hm) as (Hx & Hx1 & Hx2).
    split; [exact Hx |]. split; [exact Hx1 |]. split; [discriminate |].
    intros p' d [= <-] Hdur Hpos.
    assert (Hor : JsMath.orElse (duration p) (Infinite false) = Finite d).
    { rewrite Hdur. unfold JsMath.orElse. simpl.
      destruct (Qeq_bool d 0) eqn:Hz; [| reflexivity].
      apply Qeq_bool_iff in Hz. rewrite Hz in Hpos.
      exfalso. exact (Qlt_irrefl 0 Hpos). }
    rewrite Hor in *.
    rewrite max_cases by (try discriminate; exact Hm).
    match goal with
    | |- context [if ?c then _ else _] => destruct c
    end; [exact Hm2 |].
    apply Qle_bool_iff, Qlt_le_weak. exact Hpos.
  - split; [discriminate |]. split; [reflexivity |]. split; [reflexivity |].
    intros p d [=].
Qed.

Lemma getCurrentTimeSafe_clamped_witness :
  JsMath.leb
    (getCurrentTimeSafe
       (Some {| currentTime := Finite (700 # 1); duration := Finite (613 # 2) |}))
    (Finite (613 # 2)) = true
  /\ getCurrentTimeSafe None = Finite 0.
Proof.
  split.
  - apply (proj2 (proj2 (proj2 (getCurrentTimeSafe_clamped
             (Some {| currentTime := Finite (700 # 1);
                      duration := Finite (613 # 2) |}))))
             _ (613 # 2) eq_refl eq_refl).
    reflexivity.
  - exact (proj1 (proj2 (proj2 (getCurrentTimeSafe_clamped None))) eq_refl).
Defined.

(** ** Scrub-bar markers *)

Section MarkerProperties.

Variable percentOf : JSValue -> JSNumber -> JSNumber.

Lemma drawMarkers_bookmarks (d : JSNumber) (bs : list (Z * string)) :
  List.map source (drawMarkers percentOf d (bookmarks bs)) = bookmarks bs
  /\ Forall (fun m =>
               leftPercent m = NaN
               \/ between (Finite 0) (leftPercent m) (Finite (100 # 1)))
       (drawMarkers percentOf d (bookmarks bs)).
Proof.
  induction bs as [|[time note] bs [IHs IHp]];
    [split; [reflexivity | constructor] |].
  change (bookmarks ((time, note) :: bs))
    with (bookmark time note :: bookmarks bs).
  unfold bookmark at 1 3. simpl. split; [f_equal; exact IHs |].
  constructor; [| exact IHp]. simpl.
  destruct (percentOf (JObj [("time", JNum time); ("note", JStr note)]) d)
    as [|neg|q] eqn:Hp.
  - left. reflexivity.
  - right. apply clamp_between; [reflexivity | discriminate].
  - right. apply clamp_between; [reflexivity | discriminate].
Qed.

(** X23: while the duration is unknown no marker is drawn: when the playback
    element reports a duration that is [NaN], zero or infinite, the scrub bar
    is left without markers, whatever it held and whatever the list is; and
    without a playback element the scrub bar is left as it is. *)
Theorem renderProgressBarMarkers_unknown_duration (videoPlayer : Player)
    (bar : option (list Marker)) (old : list Marker) (items : list JSValue) :
  (JsMath.truthy (duration videoPlayer) = false
   \/ JsMath.isFinite (duration videoPlayer) = false ->
   renderProgressBarMarkers percentOf (Some videoPlayer) (Some old) items
   = Some [])
  /\ renderProgressBarMarkers percentOf None bar items = bar.
Proof.
  unfold renderProgressBarMarkers. cbv zeta. split.
  - unfold JsMath.orElse.
    destruct (JsMath.truthy (duration videoPlayer)) eqn:Ht.
    + intros [Hf | Hf]; [discriminate |]. rewrite Ht, Hf. reflexivity.
    + intros _. reflexivity.
  - destruct bar; reflexivity.
Qed.

(** X24: with a finite duration that is not zero, a list of bookmarks gets
    one marker per bookmark, in list order and each drawn from its bookmark,
    and every marker sits between 0 and 100 percent unless its quotient is
    [NaN]. *)
Theorem renderProgressBarMarkers_bookmarks (videoPlayer : Player) (d : Q)
    (old : list Marker) (bs : list (Z * string)) :
  duration videoPlayer = Finite d ->
  ~ (d == 0)%Q ->
  exists markers,
    renderProgressBarMarkers percentOf (Some videoPlayer) (Some old)
      (bookmarks bs) = Some markers
    /\ List.map source markers = bookmarks bs
    /\ length markers = length bs
    /\ Forall (fun m =>
                 leftPercent m = NaN
                 \/ between (Finite 0) (leftPercent m) (Finite (100 # 1)))
         markers.
Proof.
  intros Hd Hnz. unfold renderProgressBarMarkers. cbv zeta.
  assert (Ht : JsMath.truthy (Finite d) = true).
  { simpl. apply negb_true_iff.
    destruct (Qeq_bool d 0) eqn:Hq; [| reflexivity].
    apply Qeq_bool_iff in Hq. contradiction. }
  rewrite Hd. unfold JsMath.orElse. rewrite Ht. rewrite Ht. simpl.
  destruct (drawMarkers_bookmarks (Finite d) bs) as [Hs Hp].
  eexists. split; [reflexivity |]. split; [exact Hs |]. split; [| exact Hp].
  rewrite <- (length_map source), Hs.
  unfold bookmarks. apply length_map.
Qed.

End MarkerProperties.

Lemma renderProgressBarMarkers_unknown_duration_witness :
  renderProgressBarMarkers (fun _ _ => NaN)
    (Some {| currentTime := Finite 0; duration := NaN |})
    (Some [{| leftPercent := Finite (50 # 1); source := bookmark 5 "" |}])
    twoBookmarks
  = Some [].
Proof.
  apply (proj1 (renderProgressBarMarkers_unknown_duration (fun _ _ => NaN)
                  {| currentTime := Finite 0; duration := NaN |} None
                  [{| leftPercent := Finite (50 # 1); source := bookmark 5 "" |}]
                  twoBookmarks)).
  left. reflexivity.
Defined.

Lemma renderProgressBarMarkers_bookmarks_witness :
  exists markers,
    renderProgressBarMarkers (fun _ _ => Finite (250 # 1))
      (Some {| currentTime := Finite 0; duration := Finite (600 # 1) |})
      (Some []) twoBookmarks = Some markers
    /\ length markers = 2%nat.
Proof.
  destruct (renderProgressBarMarkers_bookmarks (fun _ _ => Finite (250 # 1))
              {| currentTime := Finite 0; duration := Finite (600 # 1) |}
              (600 # 1) [] [(5, ""); (130, "intro")] eq_refl)
    as (markers & Hr & _ & Hlen & _); [discriminate |].
  exists markers. split; [exact Hr | exact Hlen].
Defined.

(** ** Element binder *)

Lemma attachVideoListeners_WellBound (resizeObserver : bool)
    (video : option nat) (b : Binder) :
  WellBound resizeObserver b ->
  WellBound resizeObserver (attachVideoListeners resizeObserver video b)
  /\ attachedVideo (attachVideoListeners resizeObserver video b) = video.
Proof.
  intros (Hl & Hs & Hro). unfold attachVideoListeners.
  destruct (decide (attachedVideo b = video)) as [Heq | Hne];
    [split; [split; [| split]; assumption | exact Heq] |].
  unfold WellBound, boundSet in *.
  destruct (attachedVideo b) as [old|] eqn:Hold, video as [v|],
    resizeObserver, (videoRO b) as [t|] eqn:Ht;
    simpl in *; try congruence; subst;
    (split; [split; [| split] | reflexivity]); simpl;
    rewrite ?Hl, ?Hs; try reflexivity;
    apply set_eq; intros x;
    rewrite ?elem_of_union, ?elem_of_difference, ?elem_of_singleton,
      ?elem_of_empty; tauto.
Qed.

(** X25: the binder follows the playback element: after any sequence of
    calls of [attachVideoListeners], starting unbound, the time-update
    listener sits on exactly the element given last (on none if that was
    [null]), the observer held by the script watches exactly that element
    when the page has resize observers, and no observer that the script let
    go of still watches anything. *)
Theorem attachAll_WellBound (resizeObserver : bool)
    (videos : list (option nat)) :
  let b := attachAll resizeObserver videos unbound in
  WellBound resizeObserver b
  /\ (forall v, last videos = Some v -> attachedVideo b = v).
Proof.
  cbv zeta. unfold attachAll.
  assert (Hgen : forall b0, WellBound resizeObserver b0 ->
            WellBound resizeObserver
              (fold_left (fun b' v => attachVideoListeners resizeObserver v b')
                 videos b0)
            /\ (forall v, last videos = Some v ->
                  attachedVideo
                    (fold_left
                       (fun b' v => attachVideoListeners resizeObserver v b')
                       videos b0) = v)).
  { induction videos as [|x videos IH]; intros b0 Hb0; simpl.
    - split; [exact Hb0 | discriminate].
    - destruct (attachVideoListeners_WellBound resizeObserver x b0 Hb0)
        as [Hw Ha].
      destruct (IH _ Hw) as [Hw' Hlast]. split; [exact Hw' |].
      destruct videos as [|y videos]; [| exact Hlast].
      simpl. intros v [= <-]. exact Ha. }
  apply Hgen. unfold WellBound, unbound. simpl.
  destruct resizeObserver; auto.
Qed.

Lemma attachAll_WellBound_witness :
  attachedVideo (attachAll true [Some 1%nat; None; Some 2%nat] unbound)
  = Some 2%nat
  /\ listening (attachAll true [Some 1%nat; None; Some 2%nat] unbound)
     = boundSet (attachAll true [Some 1%nat; None; Some 2%nat] unbound).
Proof.
  destruct (attachAll_WellBound true [Some 1%nat; None; Some 2%nat])
    as [(Hl & _) Hlast].
  split; [exact (Hlast (Some 2%nat) eq_refl) | exact Hl].
Defined.

(** ** Seeking *)

(** X13: [jumpToTimestamp] checks what it is given: for an index outside
    [0, length) of the list, or without a playback element, it does not
    seek; for the index of a bookmark and with a playback element it seeks
    to the time of that bookmark. *)
Theorem jumpToTimestamp_index (index : Z) (items : list JSValue)
    (hasPlayer : bool) :
  (index < 0 \/ Z.of_nat (length items) <= index \/ hasPlayer = false ->
     jumpToTimestamp index items hasPlayer = None)
  /\ (forall before after time note,
        items = (before ++ bookmark time note :: after)%list ->
        index = Z.of_nat (length before) ->
        hasPlayer = true ->
        jumpToTimestamp index items hasPlayer = Some (JNum time)).
Proof.
  unfold jumpToTimestamp. cbv zeta. split.
  - intros [Hneg | [Hbig | ->]].
    + unfold JsArray.get.
      replace (index <? 0) with true by (symmetry; apply Z.ltb_lt; lia).
      reflexivity.
    + unfold JsArray.get. destruct (index <? 0); [reflexivity |].
      rewrite lookup_ge_None_2 by lia. reflexivity.
    + rewrite orb_true_r. reflexivity.
  - intros before after time note -> -> ->.
    rewrite JsArray_get_middle. reflexivity.
Qed.

Lemma jumpToTimestamp_index_witness :
  jumpToTimestamp 2 twoBookmarks true = None
  /\ jumpToTimestamp 1 twoBookmarks true = Some (JNum 130).
Proof.
  split.
  - apply (proj1 (jumpToTimestamp_index 2 twoBookmarks true)).
    right. left. simpl. lia.
  - exact (proj2 (jumpToTimestamp_index 1 twoBookmarks true)
             [bookmark 5 ""] [] 130 "intro" eq_refl eq_refl eq_refl).
Defined.

(** ** Entering a video *)


